(** * Session refresh of the Uplay backend client (src/backend.py)

    A shallow embedding of [BackendClient]: the session state, the
    HTTP request executor, the refresh coordinator and the
    authenticated call wrapper, with the properties of their
    specification settled against the code.

    Coroutines are embedded as resumption trees: the synchronous code
    between two [await]s reads and updates the shared client state, an
    [await] on the network suspends the coroutine until a reply is
    delivered.  A single coroutine is run against a scripted server by
    [run]; several coroutines sharing one client are interleaved by
    [sched]. *)

From Stdlib Require Import ZArith String Ascii List Bool Lia.
From stdpp Require Import base option gmap strings list fin_maps pretty.

Local Open Scope string_scope.
Local Open Scope Z_scope.

(** ** Python values *)

(** The values that travel through credential bundles, JSON replies and
    header dictionaries. *)
Inductive pyval : Type :=
  | PNone
  | PBool (b : bool)
  | PInt (z : Z)
  | PStr (s : string).

#[global] Instance pyval_eq_dec : EqDecision pyval.
Proof. solve_decision. Defined.

(** Python truthiness, as tested by [if x:] and [not x]. *)
Definition truthy (v : pyval) : bool :=
  match v with
  | PNone => false
  | PBool b => b
  | PInt z => negb (z =? 0)
  | PStr s => negb (String.eqb s "")
  end.

(** [x is None]. *)
Definition is_none (v : pyval) : bool :=
  match v with PNone => true | _ => false end.

(** [str(x)], as interpolated by an f-string. *)
Definition py_str (v : pyval) : string :=
  match v with
  | PNone => "None"
  | PBool true => "True"
  | PBool false => "False"
  | PInt z => pretty z
  | PStr s => s
  end.

(** A dictionary with string keys: credential bundles, JSON objects and
    header sets. *)
Abbreviation dict := (gmap string pyval).

(** ** Exceptions *)

Inductive exn : Type :=
  | AuthenticationRequired
  | AccessDenied
  | UnknownError
  | KeyError (key : string)
  | ValueError
  | TypeError
  | OtherException (name : string).

#[global] Instance exn_eq_dec : EqDecision exn.
Proof. solve_decision. Defined.

(** The handler [except (AccessDenied, AuthenticationRequired)]. *)
Definition is_auth_error (e : exn) : bool :=
  match e with
  | AuthenticationRequired | AccessDenied => true
  | _ => false
  end.

Inductive outcome (A : Type) : Type :=
  | Returned (a : A)
  | Raised (e : exn)
  | Blocked.
Arguments Returned {A} a.
Arguments Raised {A} e.
Arguments Blocked {A}.

(** ** Conversions used by the expiry test *)

(** The ASCII characters that [int] skips around a number. *)
Definition is_space (a : ascii) : bool :=
  let n := nat_of_ascii a in
  (Nat.eqb n 32 || (Nat.leb 9 n && Nat.leb n 13) ||
   (Nat.leb 28 n && Nat.leb n 31))%bool.

Definition digit_of (a : ascii) : option Z :=
  let n := nat_of_ascii a in
  if (Nat.leb 48 n && Nat.leb n 57)%bool then Some (Z.of_nat n - 48) else None.

Fixpoint lstrip (l : list ascii) : list ascii :=
  match l with
  | a :: l' => if is_space a then lstrip l' else l
  | [] => []
  end.

Definition strip (l : list ascii) : list ascii :=
  rev (lstrip (rev (lstrip l))).

(** Decimal digits, single underscores allowed between two digits. *)
Fixpoint parse_digits (acc : Z) (after_digit : bool) (l : list ascii) : option Z :=
  match l with
  | [] => if after_digit then Some acc else None
  | a :: l' =>
      match digit_of a with
      | Some d => parse_digits (10 * acc + d) true l'
      | None =>
          if (Ascii.eqb a "_" && after_digit)%bool
          then parse_digits acc false l'
          else None
      end
  end.

(** [int(s)] for a string [s], base ten: surrounding white space, an
    optional sign, ASCII digits.  [None] stands for [ValueError]. *)
Definition int_of_string (s : string) : option Z :=
  match strip (list_ascii_of_string s) with
  | "-"%char :: l => Z.opp <$> parse_digits 0 false l
  | "+"%char :: l => parse_digits 0 false l
  | l => parse_digits 0 false l
  end.

(** [int(x)]. *)
Definition py_int (v : pyval) : exn + Z :=
  match v with
  | PInt z => inr z
  | PBool b => inr (if b then 1 else 0)
  | PStr s => match int_of_string s with Some z => inr z | None => inl ValueError end
  | PNone => inl TypeError
  end.

(** ** Local time

    [datetime.now()], [datetime.fromtimestamp(n)] and the sum of one of
    them and a [timedelta] are naive local datetimes: readings of the
    wall clock, without zone.  A reading is counted in microseconds
    since the reading 1970-01-01 00:00:00, the resolution of
    [datetime], so that comparing two readings and adding a
    [timedelta] are comparison and addition of integers.

    How readings and POSIX timestamps correspond is a matter of the
    host's time zone and C library:
    - [fromtimestamp n] is [datetime.fromtimestamp(n)] for an integer
      [n]: the reading of the local clock [n] seconds after the epoch,
      or the exception raised when the platform cannot convert [n]
      ([OverflowError], [OSError] or [ValueError]);
    - [timestamp d] is [d.timestamp()] for a naive [d], in
      microseconds: the timestamp that the zone's rules give to the
      reading [d] (where the clock shows [d] twice, the earlier one),
      or the exception raised when the platform cannot convert [d]. *)
Class LocalTime : Type := {
  fromtimestamp : Z → exn + Z;
  timestamp : Z → exn + Z
}.

(** The readings [datetime.min], 0001-01-01 00:00:00, and
    [datetime.max], 9999-12-31 23:59:59.999999. *)
Definition min_datetime : Z := -62135596800 * 1000000.
Definition max_datetime : Z := 253402300800 * 1000000 - 1.

(** [d + delta] for a naive [d] and a [timedelta] of [delta]
    microseconds: [OverflowError] when the sum is no date of the years
    1 to 9999. *)
Definition datetime_add (d delta : Z) : exn + Z :=
  if ((min_datetime <=? d + delta) && (d + delta <=? max_datetime))%bool
  then inr (d + delta)
  else inl (OtherException "OverflowError").

(** [round(x)] for the float [x] that [timestamp()] returns,
    [seconds + microsecond / 1e6], given in microseconds: the only
    microsecond count the float places exactly half way between two
    integers is 500000, where [round] picks the even neighbour.  (A
    double keeps the other counts apart from the half for timestamps
    below 2^34 s in magnitude, the years 1426 to 2513.) *)
Definition round_timestamp (us : Z) : Z :=
  let q := us / 1000000 in
  let r := us mod 1000000 in
  if r <? 500000 then q
  else if 500000 <? r then q + 1
  else if Z.even q then q else q + 1.

(** ** The client and the machine around it *)

(** The attributes of a [BackendClient] instance.  [session_headers]
    is a reference to the dictionary object bound to
    [self._session.headers]. *)
Record BackendClient : Type := mkClient {
  auth_lost_callback : option nat;
  token : pyval;
  session_id : pyval;
  refresh_token : pyval;
  refresh_time : pyval;
  user_id : pyval;
  user_name : pyval;
  refresh_in_progress : bool;
  session_headers : nat
}.

Record http_request : Type := mkRequest {
  req_method : string;
  req_url : string;
  req_headers : dict;
  req_json : option dict
}.

(** What the network hands back to [_do_request]: the decoded JSON
    object, or the exception raised by the transport, by
    [handle_exception] or by [r.json()]. *)
Inductive reply : Type :=
  | Json (j : dict)
  | Fails (e : exn).

(** A reply together with the reading of the local clock,
    [datetime.now()], at its arrival. *)
Record delivery : Type := mkDelivery {
  at_time : Z;
  answer : reply
}.

Inductive event : Type :=
  | EvLog (level msg : string)
  | EvEnterRefresh                (* a call of [_refresh_auth] *)
  | EvAttempt                     (* [_do_request_safe] is about to perform its request *)
  | EvSend (r : http_request)          (* [self._session.request] *)
  | EvSleep                       (* [asyncio.sleep(0.2)] *)
  | EvStore (creds : dict)        (* [self._plugin.store_credentials] *)
  | EvAuthLost (cb : nat).        (* the auth-lost callback is called *)

#[global] Instance http_request_eq_dec : EqDecision http_request.
Proof. solve_decision. Defined.
#[global] Instance event_eq_dec : EqDecision event.
Proof. solve_decision. Defined.

(** The client, the dictionary objects it can reach ([heap], addressed
    by position), the reading of the local clock ([datetime.now()]),
    the number of requests sent so far and the observable history. *)
Record state : Type := mkState {
  self : BackendClient;
  heap : list dict;
  clock : Z;
  sent : nat;
  trace : list event
}.

Definition upd_self (f : BackendClient → BackendClient) (s : state) : state :=
  mkState (f (self s)) (heap s) (clock s) (sent s) (trace s).

Definition emit (ev : event) (s : state) : state :=
  mkState (self s) (heap s) (clock s) (sent s) (trace s ++ [ev]).

Definition with_heap (h : list dict) (s : state) : state :=
  mkState (self s) h (clock s) (sent s) (trace s).

Definition deliver (d : delivery) (s : state) : state :=
  mkState (self s) (heap s) (at_time d) (S (sent s)) (trace s).

Definition at_clock (t : Z) (s : state) : state :=
  mkState (self s) (heap s) t (sent s) (trace s).

Definition with_auth_lost_callback (v : option nat) (c : BackendClient) :=
  mkClient v (token c) (session_id c) (refresh_token c) (refresh_time c)
    (user_id c) (user_name c) (refresh_in_progress c) (session_headers c).
Definition with_token (v : pyval) (c : BackendClient) :=
  mkClient (auth_lost_callback c) v (session_id c) (refresh_token c) (refresh_time c)
    (user_id c) (user_name c) (refresh_in_progress c) (session_headers c).
Definition with_session_id (v : pyval) (c : BackendClient) :=
  mkClient (auth_lost_callback c) (token c) v (refresh_token c) (refresh_time c)
    (user_id c) (user_name c) (refresh_in_progress c) (session_headers c).
Definition with_refresh_token (v : pyval) (c : BackendClient) :=
  mkClient (auth_lost_callback c) (token c) (session_id c) v (refresh_time c)
    (user_id c) (user_name c) (refresh_in_progress c) (session_headers c).
Definition with_refresh_time (v : pyval) (c : BackendClient) :=
  mkClient (auth_lost_callback c) (token c) (session_id c) (refresh_token c) v
    (user_id c) (user_name c) (refresh_in_progress c) (session_headers c).
Definition with_user_id (v : pyval) (c : BackendClient) :=
  mkClient (auth_lost_callback c) (token c) (session_id c) (refresh_token c) (refresh_time c)
    v (user_name c) (refresh_in_progress c) (session_headers c).
Definition with_user_name (v : pyval) (c : BackendClient) :=
  mkClient (auth_lost_callback c) (token c) (session_id c) (refresh_token c) (refresh_time c)
    (user_id c) v (refresh_in_progress c) (session_headers c).
Definition with_refresh_in_progress (v : bool) (c : BackendClient) :=
  mkClient (auth_lost_callback c) (token c) (session_id c) (refresh_token c) (refresh_time c)
    (user_id c) (user_name c) v (session_headers c).
Definition with_session_headers (v : nat) (c : BackendClient) :=
  mkClient (auth_lost_callback c) (token c) (session_id c) (refresh_token c) (refresh_time c)
    (user_id c) (user_name c) (refresh_in_progress c) v.

(** ** Coroutines *)

(** A coroutine body: it returns, raises, reads or updates the shared
    state, awaits the reply to a request, or polls
    [while c: await asyncio.sleep(0.2)]. *)
Inductive prog (A : Type) : Type :=
  | Ret (a : A)
  | Raise (e : exn)
  | Read (k : state → prog A)
  | Upd (f : state → state) (k : prog A)
  | Await (r : http_request) (k : reply → prog A)
  | WaitWhile (c : state → bool) (k : prog A).
Arguments Ret {A} a.
Arguments Raise {A} e.
Arguments Read {A} k.
Arguments Upd {A} f k.
Arguments Await {A} r k.
Arguments WaitWhile {A} c k.

Fixpoint bind {A B : Type} (m : prog A) (f : A → prog B) : prog B :=
  match m with
  | Ret a => f a
  | Raise e => Raise e
  | Read k => Read (λ s, bind (k s) f)
  | Upd g k => Upd g (bind k f)
  | Await r k => Await r (λ x, bind (k x) f)
  | WaitWhile c k => WaitWhile c (bind k f)
  end.

#[global] Instance prog_ret : MRet prog := @Ret.
#[global] Instance prog_bind : MBind prog := λ A B f m, bind m f.

(** [try: m except Exception as e: h e]; a handler that does not
    apply re-raises. *)
Fixpoint try_except {A : Type} (m : prog A) (h : exn → prog A) : prog A :=
  match m with
  | Ret a => Ret a
  | Raise e => h e
  | Read k => Read (λ s, try_except (k s) h)
  | Upd g k => Upd g (try_except k h)
  | Await r k => Await r (λ x, try_except (k x) h)
  | WaitWhile c k => WaitWhile c (try_except k h)
  end.

(** [try: m finally: fin]. *)
Definition try_finally {A : Type} (m : prog A) (fin : prog unit) : prog A :=
  r ← try_except (a ← m; Ret (inr a)) (λ e, Ret (inl e));
  fin;;
  match r with
  | inr a => Ret a
  | inl e => Raise e
  end.

Definition modify (f : state → state) : prog unit := Upd f (Ret tt).
Definition get_self : prog BackendClient := Read (λ s, Ret (self s)).
Definition set_self (f : BackendClient → BackendClient) : prog unit := modify (upd_self f).
Definition log (level msg : string) : prog unit := modify (emit (EvLog level msg)).
Definition now : prog Z := Read (λ s, Ret (clock s)).

(** ** Running one coroutine against a scripted server *)

(** The [n]-th request of a run receives delivery [w n]. *)
Abbreviation script := (nat → delivery).

Fixpoint run {A : Type} (w : script) (p : prog A) (s : state) : outcome A * state :=
  match p with
  | Ret a => (Returned a, s)
  | Raise e => (Raised e, s)
  | Read k => run w (k s) s
  | Upd f k => run w k (f s)
  | Await r k =>
      let d := w (sent s) in
      run w (k (answer d)) (deliver d (emit (EvSend r) s))
  | WaitWhile c k => if c s then (Blocked, s) else run w k s
  end.

(** ** Interleaving coroutines on one event loop *)

Inductive thread (A : Type) : Type :=
  | Ready (p : prog A)
  | Pending (k : reply → prog A)
  | Done (o : outcome A).
Arguments Ready {A} p.
Arguments Pending {A} k.
Arguments Done {A} o.

(** Runs a coroutine up to its next suspension point. *)
Fixpoint advance {A : Type} (p : prog A) (s : state) : thread A * state :=
  match p with
  | Ret a => (Done (Returned a), s)
  | Raise e => (Done (Raised e), s)
  | Read k => advance (k s) s
  | Upd f k => advance k (f s)
  | Await r k => (Pending k, emit (EvSend r) s)
  | WaitWhile c k =>
      if c s then (Ready (WaitWhile c k), emit EvSleep s) else advance k s
  end.

(** The event loop resumes thread [i] at time [at_time d]; a thread
    pending on the network receives [answer d]. *)
Definition resume {A : Type} (i : nat) (d : delivery)
    (cfg : list (thread A) * state) : list (thread A) * state :=
  let '(pool, s) := cfg in
  match pool !! i with
  | Some (Ready p) =>
      let '(t, s') := advance p (at_clock (at_time d) s) in (<[i:=t]> pool, s')
  | Some (Pending k) =>
      let '(t, s') := advance (k (answer d)) (deliver d s) in (<[i:=t]> pool, s')
  | Some (Done _) | None => cfg
  end.

Definition sched {A : Type} (steps : list (nat * delivery))
    (cfg : list (thread A) * state) : list (thread A) * state :=
  fold_left (λ c st, resume st.1 st.2 c) steps cfg.

(** ** Dictionaries and the objects behind references *)

(** [d[k]]. *)
Definition getitem (d : dict) (k : string) : prog pyval :=
  match d !! k with
  | Some v => Ret v
  | None => Raise (KeyError k)
  end.

(** [d.get(k, dflt)]. *)
Definition dict_get (d : dict) (k : string) (dflt : pyval) : pyval :=
  default dflt (d !! k).

(** [for k in src: dst[k] = src[k]]. *)
Definition copy_into (src dst : dict) : dict :=
  map_fold (λ k v acc, <[k:=v]> acc) dst src.

(** A new dictionary object. *)
Definition alloc (d : dict) : prog nat :=
  Read (λ s, Upd (with_heap (heap s ++ [d])) (Ret (length (heap s)))).

Definition deref (l : nat) : prog dict :=
  Read (λ s, Ret (default ∅ (heap s !! l))).

Definition assign (l : nat) (d : dict) : prog unit :=
  modify (λ s, with_heap (<[l:=d]> (heap s)) s).

Definition lift {A : Type} (r : exn + A) : prog A :=
  match r with
  | inr a => Ret a
  | inl e => Raise e
  end.

(** ** BackendClient *)

Section Backend.

(** The two constants imported from [consts]. *)
Context (CLUB_APPID CHROME_USERAGENT : string).

(** The host's local time. *)
Context {zone : LocalTime}.

(** [dateutil.parser.parse] on a string: the instant it denotes, in
    microseconds, or [None] when it raises its parser error (a
    [ValueError]). *)
Context (parse : string → option Z).

Definition parse_date (v : pyval) : prog Z :=
  match v with
  | PStr s => match parse s with Some t => Ret t | None => Raise ValueError end
  | _ => Raise TypeError
  end.

Definition init_headers : dict :=
  <["Authorization" := PNone]>
  (<["Ubi-AppId" := PStr CLUB_APPID]>
  (<["User-Agent" := PStr CHROME_USERAGENT]>
  (<["Ubi-SessionId" := PNone]> ∅))).

(** The client built by [__init__], at local time [t]. *)
Definition __init__ (t : Z) : state :=
  mkState (mkClient None PNone PNone PNone PNone PNone PNone false 0)
    [init_headers] t 0 [].

Definition set_auth_lost_callback (callback : nat) : prog unit :=
  set_self (with_auth_lost_callback (Some callback)).

Definition is_authenticated : prog bool :=
  c ← get_self; mret (negb (is_none (token c))).

(** [request] followed by [r.json()]: one suspension on the network. *)
Definition request (method url : string) (headers : dict) (json : option dict)
    : prog dict :=
  Await (mkRequest method url headers json)
    (λ r, match r with
          | Json j => Ret j
          | Fails e => Raise e
          end).

Definition _do_request (method url : string)
    (headers add_to_headers json : option dict) : prog dict :=
  h ← match headers with
      | None =>
          log "info" "No headers in kwargs, using session headers";;
          c ← get_self; mret (session_headers c)
      | Some d => alloc d
      end;
  match add_to_headers with
  | Some add => d ← deref h; assign h (copy_into add d)
  | None => mret tt
  end;;
  hs ← deref h;
  j ← request method url hs json;
  log "info" "Response status";;
  mret j.

Definition sessions_url : string :=
  "https://public-ubiservices.ubi.com/v3/profiles/sessions".

Definition _do_options_request : prog unit :=
  _do_request "options" sessions_url
    (Some (<["Origin" := PStr "https://connect.ubisoft.com"]>
          (<["Referer" := PStr "https://connect.ubisoft.com/login?appId=314d4fef-e568-454a-ae06-43e3bece12a6"]>
          (<["User-Agent" := PStr CHROME_USERAGENT]> ∅))))
    None None;;
  mret tt.

Definition restore_credentials (data : dict) : prog unit :=
  v ← getitem data "ticket"; set_self (with_token v);;
  v ← getitem data "sessionId"; set_self (with_session_id v);;
  v ← getitem data "userId"; set_self (with_user_id v);;
  (if truthy (dict_get data "username" PNone)
   then v ← getitem data "username"; set_self (with_user_name v)
   else mret tt);;
  set_self (with_refresh_time (dict_get data "refreshTime" (PStr "0")));;
  (if truthy (dict_get data "rememberMeTicket" PNone)
   then v ← getitem data "rememberMeTicket"; set_self (with_refresh_token v)
   else mret tt);;
  c ← get_self;
  l ← alloc (<["Ubi-AppId" := PStr CLUB_APPID]>
            (<["Authorization" := PStr ("Ubi_v1 t=" ++ py_str (token c))]>
            (<["Ubi-SessionId" := session_id c]> ∅)));
  set_self (with_session_headers l).

Definition _handle_authorization_response (j : dict) : prog unit :=
  t ← now;
  v ← getitem j "expiration"; expiration ← parse_date v;
  v ← getitem j "serverTime"; serverTime ← parse_date v;
  refresh_time ← lift (datetime_add t (expiration - serverTime));
  x ← lift (timestamp refresh_time);
  restore_credentials (<["refreshTime" := PInt (round_timestamp x)]> j).

Definition get_credentials : prog dict :=
  c ← get_self;
  let creds : dict :=
    <["ticket" := token c]>
    (<["sessionId" := session_id c]>
    (<["rememberMeTicket" := refresh_token c]>
    (<["userId" := user_id c]>
    (<["refreshTime" := refresh_time c]> ∅)))) in
  mret (if truthy (user_name c) then <["username" := user_name c]> creds else creds).

Definition refresh_headers (authorization : string) : dict :=
  <["Accept" := PStr "*/*"]>
  (<["Accept-Encoding" := PStr "gzip, deflate, br"]>
  (<["Accept-Language" := PStr "en-US;en;q=0.5"]>
  (<["Authorization" := PStr authorization]>
  (<["Content-Type" := PStr "application/json"]>
  (<["Ubi-AppId" := PStr CLUB_APPID]>
  (<["User-Agent" := PStr CHROME_USERAGENT]>
  (<["Host" := PStr "public-ubiservices.ubi.com"]>
  (<["Origin" := PStr "https://connect.ubisoft.com"]>
  (<["Referer" := PStr "https://connect.ubisoft.com"]> ∅))))))))).

Definition _refresh_remember_me : prog unit :=
  log "debug" "Refreshing rememberMeTicket";;
  _do_options_request;;
  c ← get_self;
  j ← _do_request "post" sessions_url
        (Some (refresh_headers ("rm_v1 t=" ++ py_str (refresh_token c))))
        None (Some (<["rememberMe" := PBool true]> ∅));
  _handle_authorization_response j.

Definition _refresh_ticket : prog unit :=
  log "debug" "Refreshing ticket";;
  _do_options_request;;
  c ← get_self;
  j ← _do_request "put" sessions_url
        (Some (refresh_headers ("Ubi_v1 t=" ++ py_str (token c))))
        None None;
  _handle_authorization_response j.

(** The two phases and the persistence that follows them: the body
    of the [try] in [_refresh_auth]. *)
Definition refresh_protocol : prog unit :=
  _refresh_remember_me;;
  _refresh_ticket;;
  creds ← get_credentials;
  modify (emit (EvStore creds)).

Definition _refresh_auth : prog unit :=
  modify (emit EvEnterRefresh);;
  c ← get_self;
  if refresh_in_progress c then
    log "info" "Refreshing already in progress.";;
    WaitWhile (λ s, refresh_in_progress (self s)) (Ret tt)
  else
    set_self (with_refresh_in_progress true);;
    try_finally refresh_protocol
      (set_self (with_refresh_in_progress false)).

(** The request wrapped by [_do_request_safe]; each try is marked in
    the history. *)
Definition attempt (method url : string)
    (headers add_to_headers json : option dict) : prog dict :=
  modify (emit EvAttempt);;
  _do_request method url headers add_to_headers json.

(** The test at the head of [_do_request_safe]. *)
Definition refresh_needed : prog bool :=
  c ← get_self;
  if negb (truthy (refresh_token c)) then
    log "debug" "rememberMeTicket expiration time";;
    if is_none (refresh_time c) then mret true
    else
      t ← now;
      n ← lift (py_int (refresh_time c));
      d ← lift (fromtimestamp n);
      mret (d <? t)
  else mret false.

(** The inner handler of [_do_request_safe]:
    [except (AccessDenied, AuthenticationRequired)] around the
    direct request. *)
Definition fallback (method url : string)
    (headers add_to_headers json : option dict) (e : exn) : prog dict :=
  if is_auth_error e then
    log "debug" "Fallback refresh";;
    _refresh_auth;;
    attempt method url headers add_to_headers json
  else Raise e.

(** The two outer handlers of [_do_request_safe]:
    [except (AccessDenied, AuthenticationRequired) as e] and
    [except Exception as e]. *)
Definition on_failure (e : exn) : prog dict :=
  if is_auth_error e then
    log "debug" "Unable to refresh authentication calling auth lost";;
    c ← get_self;
    match auth_lost_callback c with
    | Some cb => modify (emit (EvAuthLost cb))
    | None => mret tt
    end;;
    Raise e
  else
    log "debug" "Refresh workflow has failed:";;
    Raise e.

(** The body of the outer [try] of [_do_request_safe]. *)
Definition guarded (method url : string)
    (headers add_to_headers json : option dict) : prog dict :=
  needed ← refresh_needed;
  if needed : bool then
    _refresh_auth;;
    attempt method url headers add_to_headers json
  else
    try_except (attempt method url headers add_to_headers json)
      (fallback method url headers add_to_headers json).

Definition _do_request_safe (method url : string)
    (headers add_to_headers json : option dict) : prog dict :=
  try_except (guarded method url headers add_to_headers json) on_failure.

(** Two of the endpoint methods. *)
Definition get_friends : prog dict :=
  _do_request_safe "get" "https://api-ubiservices.ubi.com/v2/profiles/me/friends"
    None None None.

Definition post_sessions : prog dict :=
  _do_request_safe "post" "https://public-ubiservices.ubi.com/v2/profiles/sessions"
    None (Some (<["Content-Type" := PStr "application/json"]> ∅)) None.

Definition get_game_stats (space_id : string) : prog dict :=
  c ← get_self;
  let url := "https://public-ubiservices.ubi.com/v1/profiles/" ++ py_str (user_id c)
             ++ "/statscard?spaceId=" ++ space_id in
  try_except
    (_do_request "get" url None
       (Some (<["Ubi-RequestedPlatformType" := PStr "uplay"]>
             (<["Ubi-LocaleCode" := PStr "en-GB"]> ∅))) None)
    (λ e, match e with
          | UnknownError => mret ∅
          | _ => Raise e
          end).

End Backend.

(** ** Observations on histories *)

Fixpoint count_ev (p : event → bool) (l : list event) : nat :=
  match l with
  | [] => 0
  | e :: l' => ((if p e then 1 else 0) + count_ev p l')%nat
  end.

Definition is_enter_refresh (e : event) : bool :=
  match e with EvEnterRefresh => true | _ => false end.
Definition is_attempt (e : event) : bool :=
  match e with EvAttempt => true | _ => false end.
Definition is_auth_lost (e : event) : bool :=
  match e with EvAuthLost _ => true | _ => false end.

(** Calls of the coordinator, tries of the wrapped request and calls of
    the auth-lost callback recorded so far. *)
Definition refresh_calls (s : state) : nat := count_ev is_enter_refresh (trace s).
Definition attempts (s : state) : nat := count_ev is_attempt (trace s).
Definition auth_lost_calls (s : state) : nat := count_ev is_auth_lost (trace s).

(** The requests sent so far, oldest first. *)
Definition sent_requests (s : state) : list http_request :=
  omap (λ e, match e with EvSend r => Some r | _ => None end) (trace s).

(** ** Laws of the semantics *)

Definition and_then {A B : Type} (r : outcome A * state)
    (f : A → state → outcome B * state) : outcome B * state :=
  match r with
  | (Returned a, s) => f a s
  | (Raised e, s) => (Raised e, s)
  | (Blocked, s) => (Blocked, s)
  end.

Definition or_else {A : Type} (r : outcome A * state)
    (h : exn → state → outcome A * state) : outcome A * state :=
  match r with
  | (Raised e, s) => h e s
  | _ => r
  end.

(** ** Frames and termination *)

(** [respects R p]: every step of [p] takes the state to one related
    to it by [R]. *)
Inductive respects {A : Type} (R : relation state) : prog A → Prop :=
  | respects_ret a : respects R (Ret a)
  | respects_raise e : respects R (Raise e)
  | respects_read k : (∀ s, respects R (k s)) → respects R (Read k)
  | respects_upd f k : (∀ s, R s (f s)) → respects R k → respects R (Upd f k)
  | respects_await r k :
      (∀ s, R s (emit (EvSend r) s)) →
      (∀ d s, R s (deliver d s)) →
      (∀ x, respects R (k x)) → respects R (Await r k)
  | respects_wait c k :
      (∀ s, R s (emit EvSleep s)) →
      respects R k → respects R (WaitWhile c k).

(** [keeps obs p]: no step of [p] changes the observation [obs]. *)
Definition same {X : Type} (obs : state → X) : relation state :=
  λ s s', obs s' = obs s.
Abbreviation keeps obs := (respects (same obs)).

(** [grows p]: [p] only appends to the history. *)
Definition longer : relation state := λ s s', trace s `prefix_of` trace s'.
Abbreviation grows := (respects longer).

(** [nonblocking p]: [p] has no polling loop. *)
Inductive nonblocking {A : Type} : prog A → Prop :=
  | nb_ret a : nonblocking (Ret a)
  | nb_raise e : nonblocking (Raise e)
  | nb_read k : (∀ s, nonblocking (k s)) → nonblocking (Read k)
  | nb_upd f k : nonblocking k → nonblocking (Upd f k)
  | nb_await r k : (∀ x, nonblocking (k x)) → nonblocking (Await r k).

(** ** Notions of the specification *)

(** Session State invariant: ticket and session id are both present or
    both absent. *)
Definition both_or_neither (c : BackendClient) : Prop :=
  is_none (token c) = is_none (session_id c).

(** The default headers after a login or refresh. *)
Definition authenticated_headers (CLUB_APPID : string) (c : BackendClient) : dict :=
  <["Ubi-AppId" := PStr CLUB_APPID]>
  (<["Authorization" := PStr ("Ubi_v1 t=" ++ py_str (token c))]>
  (<["Ubi-SessionId" := session_id c]> ∅)).

(** The dictionary object bound to [self._session.headers]. *)
Definition default_headers (s : state) : dict :=
  default ∅ (heap s !! session_headers (self s)).

(** The dictionary a request is sent with, and the state it is sent
    from: the session's own dictionary object when no [headers] are
    passed, a new object otherwise; [add_to_headers] is written into
    that object. *)
Definition headers_ref (headers : option dict) (s : state) : nat :=
  match headers with
  | None => session_headers (self s)
  | Some _ => length (heap s)
  end.

Definition prepared (headers add : option dict) (s : state) : state :=
  let s1 :=
    match headers with
    | None => emit (EvLog "info" "No headers in kwargs, using session headers") s
    | Some d => with_heap (heap s ++ [d]) s
    end in
  let h := headers_ref headers s in
  match add with
  | Some a => with_heap (<[h := copy_into a (default ∅ (heap s1 !! h))]> (heap s1)) s1
  | None => s1
  end.

(** The events a call has added to the history. *)
Definition new_events (s s' : state) : list event :=
  drop (length (trace s)) (trace s').

(** The first thing a call of the wrapper does: it enters the
    coordinator or it tries its request. *)
Fixpoint first_action (evs : list event) : option event :=
  match evs with
  | [] => None
  | e :: l => if (is_enter_refresh e || is_attempt e)%bool then Some e else first_action l
  end.

(** The expiry test of [_do_request_safe] as a formula on the client
    and the reading [t] of the local clock: its answer, or the
    exception of [int] or [fromtimestamp]. *)
Definition expiry_test {zone : LocalTime} (c : BackendClient) (t : Z) : exn + bool :=
  if truthy (refresh_token c) then inr false
  else if is_none (refresh_time c) then inr true
  else
    match py_int (refresh_time c) with
    | inr n =>
        match fromtimestamp n with
        | inr d => inr (d <? t)
        | inl e => inl e
        end
    | inl e => inl e
    end.

(** The test asks for a refresh. *)
Definition must_refresh {zone : LocalTime} (c : BackendClient) (t : Z) : bool :=
  match expiry_test c t with
  | inr needed => needed
  | inl _ => false
  end.

(** The expiry-time decision rule in the words of the specification:
    without a refresh token always refresh; otherwise refresh when no
    expiry timestamp is known or the time is strictly past it. *)
Definition spec_decision_rule {zone : LocalTime} (c : BackendClient) (t : Z) : bool :=
  if negb (truthy (refresh_token c)) then true
  else
    is_none (refresh_time c) ||
    match py_int (refresh_time c) with
    | inr n =>
        match fromtimestamp n with
        | inr d => d <? t
        | inl _ => false
        end
    | inl _ => false
    end.

(** A caller of [_refresh_auth] that found the flag set: suspended in
    [while self.__refresh_in_progress: await asyncio.sleep(0.2)]. *)
Definition waiting : thread unit :=
  Ready (WaitWhile (λ s, refresh_in_progress (self s)) (Ret tt)).

(** A later call of [_do_request] by some endpoint method that handles
    the outcome itself, and a sequence of such calls. *)
Record call : Type := mkCall {
  call_method : string;
  call_url : string;
  call_headers : option dict;
  call_add_to_headers : option dict;
  call_json : option dict
}.

Definition perform (c : call) : prog unit :=
  try_except
    (_do_request (call_method c) (call_url c) (call_headers c)
       (call_add_to_headers c) (call_json c);;
     mret tt)
    (λ _, mret tt).

Fixpoint perform_all (cs : list call) : prog unit :=
  match cs with
  | [] => mret tt
  | c :: cs' => perform c;; perform_all cs'
  end.

(** The later call does not write one of the header names of [add]
    into the default headers. *)
Definition spares (add : dict) (c : call) : Prop :=
  call_headers c = None →
  ∀ a, call_add_to_headers c = Some a → a ##ₘ add.

(** The request is the one of the call, and it carries [add] if the
    call uses the default headers. *)
Definition carries (add : dict) (c : call) (r : http_request) : Prop :=
  req_method r = call_method c ∧ req_url r = call_url c ∧
  (call_headers c = None → add ⊆ req_headers r).

(** ** A concrete setting *)

(** Constants, a date parser for the UTC timestamps of the backend's
    replies ([2020-05-01T10:00:00.0000000Z]) and a few states and
    replies, used to evaluate the model. *)
Module Sample.

Definition CLUB_APPID : string := "314d4fef-e568-454a-ae06-43e3bece12a6".
Definition CHROME_USERAGENT : string :=
  "Mozilla/5.0 (Windows NT 10.0; Win64; x64) AppleWebKit/537.36 (KHTML, like Gecko) Chrome/72.0.3626.121 Safari/537.36".

Definition number (l : list ascii) : option Z :=
  match l with
  | [] => None
  | _ => foldl (λ acc a, n ← acc; d ← digit_of a; Some (10 * n + d)) (Some 0) l
  end.

Definition field (l : list ascii) (pos len : nat) : option Z :=
  if decide (length (take len (drop pos l)) = len)
  then number (take len (drop pos l)) else None.

Definition days_from_civil (y m d : Z) : Z :=
  let y' := if m <=? 2 then y - 1 else y in
  let era := y' / 400 in
  let yoe := y' - era * 400 in
  let doy := (153 * (m + (if 2 <? m then -3 else 9)) + 2) / 5 + d - 1 in
  let doe := yoe * 365 + yoe / 4 - yoe / 100 + doy in
  era * 146097 + doe - 719468.

(** The fraction of a second, cut to microseconds. *)
Definition fraction (l : list ascii) : option Z :=
  match l with
  | ["Z"%char] => Some 0
  | "."%char :: l' =>
      match reverse l' with
      | "Z"%char :: ds => number (take 6 (reverse ds ++ replicate 6 "0"%char))
      | _ => None
      end
  | _ => None
  end.

Definition parse (s : string) : option Z :=
  let l := list_ascii_of_string s in
  if decide (l !! 4%nat = Some "-"%char ∧ l !! 7%nat = Some "-"%char ∧
             l !! 10%nat = Some "T"%char ∧ l !! 13%nat = Some ":"%char ∧
             l !! 16%nat = Some ":"%char)
  then
    y ← field l 0 4; m ← field l 5 2; d ← field l 8 2;
    hh ← field l 11 2; mm ← field l 14 2; ss ← field l 17 2;
    us ← fraction (drop 19 l);
    Some ((((days_from_civil y m d * 24 + hh) * 60 + mm) * 60 + ss) * 1000000 + us)
  else None.

(** A Linux host that keeps UTC all year: a reading of its clock is an
    instant.  It converts the timestamps of the years 1 to 9999, the
    first day excepted, and refuses the others as CPython does
    there. *)
#[export] Instance utc : LocalTime := {|
  fromtimestamp n :=
    if ((-62135510400 <=? n) && (n <=? 253402300799))%bool
    then inr (n * 1000000)
    else if ((-67768040609740800 <=? n) && (n <=? 67768036191676799))%bool
    then inl ValueError
    else if ((- 2 ^ 63 <=? n) && (n <? 2 ^ 63))%bool
    then inl (OtherException "OSError")
    else inl (OtherException "OverflowError");
  timestamp d :=
    if d <? -62135510400 * 1000000 then inl ValueError else inr d
|}.

(** A host whose clock is two hours ahead of UTC until 2020-10-25
    01:00:00 UTC and one hour ahead from then on: Central European
    time between the changes of March 2020 and March 2021.  In the
    night of the change the clock reads the hour from 02:00 to 03:00
    twice. *)
Definition cet_change : Z := 1603587600 * 1000000.
Definition cet : LocalTime := {|
  fromtimestamp n :=
    if n * 1000000 <? cet_change
    then inr (n * 1000000 + 7200 * 1000000)
    else inr (n * 1000000 + 3600 * 1000000);
  timestamp d :=
    if d <? cet_change + 7200 * 1000000
    then inr (d - 7200 * 1000000)
    else inr (d - 3600 * 1000000)
|}.

(** A complete credential bundle. *)
Definition bundle : dict :=
  <["ticket" := PStr "T0"]>
  (<["sessionId" := PStr "S0"]>
  (<["rememberMeTicket" := PStr "R0"]>
  (<["userId" := PStr "U0"]>
  (<["username" := PStr "alice"]>
  (<["refreshTime" := PInt 1588330800]> ∅))))).

(** A reply of the sessions endpoint, valid for three hours. *)
Definition session_reply (ticket session : string) : dict :=
  <["ticket" := PStr ticket]>
  (<["sessionId" := PStr session]>
  (<["userId" := PStr "U0"]>
  (<["rememberMeTicket" := PStr "R1"]>
  (<["expiration" := PStr "2020-05-01T13:00:00.0000000Z"]>
  (<["serverTime" := PStr "2020-05-01T10:00:00.0000000Z"]> ∅))))).

(** Local time of the sample runs: 2020-05-01 10:00:07.25. *)
Definition t0 : Z := 1588327207250000.

(** A server that answers the [n]-th request with the [n]-th reply
    of a list, and with an empty JSON object afterwards. *)
Definition server (replies : list reply) : script :=
  λ n, mkDelivery t0 (default (Json ∅) (replies !! n)).

Definition fresh : state := __init__ CLUB_APPID CHROME_USERAGENT t0.

(** The client after [restore_credentials(bundle)]. *)
Definition logged_in : state :=
  (run (server []) (restore_credentials CLUB_APPID bundle) fresh).2.

End Sample.

(** Sample runs. *)
Module Scenario.

Import Sample.

Definition friends_url : string :=
  "https://api-ubiservices.ubi.com/v2/profiles/me/friends".


(** A client restored from a bundle without [rememberMeTicket], whose
    ticket is still valid. *)
Definition without_remember_me : state :=
  (run (server []) (restore_credentials CLUB_APPID (delete "rememberMeTicket" bundle))
     fresh).2.


(** The backend rejects the ticket once and then serves the refresh
    and the retried request. *)
Definition recovering : script :=
  server [Fails AuthenticationRequired;
          Json ∅; Json (session_reply "T1" "S1");
          Json ∅; Json (session_reply "T2" "S2");
          Json ∅].

(** The backend serves a statistics request, then rejects the ticket
    once and serves the refresh and the retried request. *)
Definition stats_then_recovering : script :=
  server [Json ∅; Fails AuthenticationRequired;
          Json ∅; Json (session_reply "T1" "S1");
          Json ∅; Json (session_reply "T2" "S2");
          Json ∅].

Definition on_time : delivery := mkDelivery t0 (Json ∅).


(** The backend rejects the ticket before and after the refresh. *)
Definition rejecting_twice : script :=
  server [Fails AuthenticationRequired;
          Json ∅; Json (session_reply "T1" "S1");
          Json ∅; Json (session_reply "T2" "S2");
          Fails AuthenticationRequired].

(** The logged-in client with auth-lost callback number 7 registered. *)
Definition with_callback : state :=
  (run (server []) (set_auth_lost_callback 7) logged_in).2.



(** The three required keys only. *)
Definition minimal_bundle : dict :=
  <["ticket" := PStr "T1"]> (<["sessionId" := PStr "S1"]> (<["userId" := PStr "U0"]> ∅)).

End Scenario.


(** ** The remaining methods of the client *)

(** [d.pop(k)]. *)
Definition dict_pop (d : dict) (k : string) : prog (pyval * dict) :=
  match d !! k with
  | Some v => Ret (v, delete k d)
  | None => Raise (KeyError k)
  end.

(** The names picked out of the login cookies. *)
Definition tasty_cookies : list string :=
  ["user_id"; "user_name"; "ticket"; "rememberMeTicket"; "sessionId"].

(** The loop of [authorise_with_cookies]:
    [if cookie['name'] in tasty_cookies:
       user_data[cookie['name']] = cookie['value']]. *)
Fixpoint collect_cookies (cookies : list dict) (user_data : dict) : prog dict :=
  match cookies with
  | [] => mret user_data
  | cookie :: rest =>
      name ← getitem cookie "name";
      match name with
      | PStr n =>
          if bool_decide (n ∈ tasty_cookies) then
            v ← getitem cookie "value";
            collect_cookies rest (<[n := v]> user_data)
          else collect_cookies rest user_data
      | _ => collect_cookies rest user_data
      end
  end.

(** The items of [space['spaceId'] for space in spaces], which
    [','.join] first collects and then requires to be strings. *)
Fixpoint space_ids (spaces : list dict) : prog (list pyval) :=
  match spaces with
  | [] => mret []
  | space :: rest =>
      v ← getitem space "spaceId";
      vs ← space_ids rest;
      mret (v :: vs)
  end.

Fixpoint join_strings (vs : list pyval) : prog (list string) :=
  match vs with
  | [] => mret []
  | PStr s :: rest => ss ← join_strings rest; mret (s :: ss)
  | _ :: _ => Raise TypeError
  end.

(** The string held by a value, if it is one. *)
Definition as_string (v : pyval) : option string :=
  match v with PStr s => Some s | _ => None end.

Definition is_store (e : event) : bool :=
  match e with EvStore _ => true | _ => false end.

(** Calls of [self._plugin.store_credentials] recorded so far. *)
Definition store_calls (s : state) : nat := count_ev is_store (trace s).


(** [releases p]: [p] is what is left of an owner's run of
    [_refresh_auth]: it never polls, it leaves the in-progress flag as
    it is until its last step, and its last step clears the flag. *)
Inductive releases : prog unit → Prop :=
  | releases_ret f a :
      (∀ s, refresh_in_progress (self (f s)) = false) → releases (Upd f (Ret a))
  | releases_raise f e :
      (∀ s, refresh_in_progress (self (f s)) = false) → releases (Upd f (Raise e))
  | releases_read k : (∀ s, releases (k s)) → releases (Read k)
  | releases_upd f k :
      (∀ s, refresh_in_progress (self (f s)) = refresh_in_progress (self s)) →
      releases k → releases (Upd f k)
  | releases_await r k : (∀ x, releases (k x)) → releases (Await r k).

(** A caller suspended on the network inside the protocol. *)
Definition owning (t : thread unit) : Prop :=
  ∃ k, t = Pending k ∧ ∀ x, releases (k x).

Definition is_pending {A : Type} (t : thread A) : bool :=
  match t with Pending _ => true | _ => false end.

Section Endpoints.

Context (CLUB_APPID CHROME_USERAGENT : string).
Context {zone : LocalTime} (parse : string → option Z).

Local Abbreviation safe := (_do_request_safe CLUB_APPID CHROME_USERAGENT parse).

Definition get_user_data : prog dict :=
  c ← get_self;
  safe "get" ("https://public-ubiservices.ubi.com/v3/users/" ++ py_str (user_id c))
    None None None.

Definition get_club_titles : prog dict :=
  safe "get"
    "https://public-ubiservices.ubi.com/v1/profiles/me/club/aggregation/website/games/owned"
    None None None.

Definition get_applications (spaces : list dict) : prog dict :=
  vs ← space_ids spaces;
  ss ← join_strings vs;
  safe "get"
    ("https://api-ubiservices.ubi.com/v2/applications?spaceIds=" ++ String.concat "," ss)
    None None None.

Definition get_challenges (space_id : string) : prog dict :=
  c ← get_self;
  safe "get"
    ("https://public-ubiservices.ubi.com/v1/profiles/" ++ py_str (user_id c)
     ++ "/club/actions?limit=100&locale=en-US&spaceId=" ++ space_id)
    None None None.

(** [r] is the decoded JSON object, which has no method [json]:
    [return r.json()] raises [AttributeError]. *)
Definition get_configuration : prog dict :=
  r ← safe "get" "https://uplaywebcenter.ubi.com/v1/configuration" None None None;
  Raise (OtherException "AttributeError").

(** The result is [r["games"]], or [None] when the subscription is
    not active. *)
Definition get_subscription_titles : prog pyval :=
  r ← try_except
         (j ← _do_request "get" "https://api-uplayplusvault.ubi.com/v1/games?locale=en-US"
                None None None;
          mret (Some j))
         (λ e, match e with
               | AuthenticationRequired =>
                   log "info" "Uplay plus Subscription not active";; mret None
               | _ => Raise e
               end);
  match r with
  | Some j => getitem j "games"
  | None => mret PNone
  end.

Definition activate_game (activation_id : string) : prog bool :=
  r ← safe "post"
        ("https://api-uplayplusvault.ubi.com/v1/games/activate/" ++ activation_id)
        None None None;
  mret (bool_decide (is_Some (r !! "games"))).

Definition authorise_with_stored_credentials (credentials : dict) : prog dict :=
  restore_credentials CLUB_APPID credentials;;
  c ← get_self;
  user_data ←
    (if (negb (truthy (user_name c)) || negb (truthy (user_id c)))%bool
     then get_user_data
     else mret (<["username" := user_name c]> (<["userId" := user_id c]> ∅)));
  post_sessions CLUB_APPID CHROME_USERAGENT parse;;
  creds ← get_credentials;
  modify (emit (EvStore creds));;
  mret user_data.

Definition authorise_with_cookies (cookies : list dict) : prog dict :=
  user_data ← collect_cookies cookies ∅;
  '(v, user_data) ← dict_pop user_data "user_id";
  let user_data := <["userId" := v]> user_data in
  '(v, user_data) ← dict_pop user_data "user_name";
  let user_data := <["username" := v]> user_data in
  restore_credentials CLUB_APPID user_data;;
  post_sessions CLUB_APPID CHROME_USERAGENT parse;;
  creds ← get_credentials;
  modify (emit (EvStore creds));;
  mret user_data.

End Endpoints.

(** A caller of [_refresh_auth] that is not inside the protocol: it
    has not started, it polls, or it is done. *)
Definition idle (CLUB_APPID CHROME_USERAGENT : string) {zone : LocalTime} (parse : string → option Z)
    (t : thread unit) : Prop :=
  t = Ready (_refresh_auth CLUB_APPID CHROME_USERAGENT parse) ∨
  t = waiting ∨ ∃ o, t = Done o.

(** The callers of one client: with the flag clear none is inside the
    protocol, with the flag set exactly one is. *)
Definition single_flight (CLUB_APPID CHROME_USERAGENT : string)
    {zone : LocalTime} (parse : string → option Z) (cfg : list (thread unit) * state) : Prop :=
  if refresh_in_progress (self cfg.2) then
    ∃ i t, cfg.1 !! i = Some t ∧ owning t ∧
           ∀ j t', j ≠ i → cfg.1 !! j = Some t' →
                   idle CLUB_APPID CHROME_USERAGENT parse t'
  else
    ∀ j t', cfg.1 !! j = Some t' → idle CLUB_APPID CHROME_USERAGENT parse t'.


(** Sample data of the two logins. *)
Module Visit.

Import Sample.

Definition cookie (name value : string) : dict :=
  <["name" := PStr name]> (<["value" := PStr value]> ∅).

(** The cookies of a completed web login, among them one the client
    does not look at and a ticket that is set twice. *)
Definition cookies : list dict :=
  [cookie "ticket" "old"; cookie "user_id" "U0"; cookie "lang" "en-GB";
   cookie "user_name" "alice"; cookie "ticket" "T0";
   cookie "rememberMeTicket" "R0"; cookie "sessionId" "S0"].

(** What the loop collects from them. *)
Definition collected : dict :=
  <["user_id" := PStr "U0"]>
  (<["user_name" := PStr "alice"]>
  (<["ticket" := PStr "T0"]>
  (<["rememberMeTicket" := PStr "R0"]>
  (<["sessionId" := PStr "S0"]> ∅)))).

(** The cookies of a visit that did not log in. *)
Definition anonymous : list dict := [cookie "lang" "en-GB"; cookie "sessionId" "S0"].

(** The reply of the users endpoint. *)
Definition user_reply : dict :=
  <["userId" := PStr "U0"]> (<["username" := PStr "alice"]> ∅).

(** Stored credentials without a user name. *)
Definition nameless : dict := delete "username" bundle.




End Visit.
Lemma run_bind {A B : Type} (w : script) (m : prog A) (f : A → prog B) (s : state) :
  run w (m ≫= f) s = and_then (run w m s) (λ a s', run w (f a) s').
Proof.
  revert s. induction m as [a|e|k IH|g k IH|r k IH|c k IH]; intros s; cbn.
  - done.
  - done.
  - apply IH.
  - apply IH.
  - apply IH.
  - destruct (c s); [done|apply IH].
Qed.

Lemma run_try_except {A : Type} (w : script) (m : prog A) (h : exn → prog A) (s : state) :
  run w (try_except m h) s = or_else (run w m s) (λ e s', run w (h e) s').
Proof.
  revert s. induction m as [a|e|k IH|g k IH|r k IH|c k IH]; intros s; cbn.
  - done.
  - done.
  - apply IH.
  - apply IH.
  - apply IH.
  - destruct (c s); [done|apply IH].
Qed.

Lemma run_try_finally {A : Type} (w : script) (m : prog A) (fin : prog unit) (s : state) :
  run w (try_finally m fin) s =
  match run w m s with
  | (Returned a, s1) => and_then (run w fin s1) (λ _ s2, (Returned a, s2))
  | (Raised e, s1) => and_then (run w fin s1) (λ _ s2, (Raised e, s2))
  | (Blocked, s1) => (Blocked, s1)
  end.
Proof.
  unfold try_finally. rewrite run_bind, run_try_except, run_bind.
  destruct (run w m s) as [[a|e|] s1]; cbn.
  - rewrite run_bind. by destruct (run w fin s1) as [[[]|e|] s2].
  - rewrite run_bind. by destruct (run w fin s1) as [[[]|e'|] s2].
  - done.
Qed.

(** ** Frame and termination rules *)

Lemma respects_bind {A B : Type} (R : relation state) (m : prog A) (f : A → prog B) :
  respects R m → (∀ a, respects R (f a)) → respects R (m ≫= f).
Proof.
  intros Hm Hf. induction Hm; cbn; try (constructor; auto; fail). apply Hf.
Qed.

Lemma respects_try_except {A : Type} (R : relation state) (m : prog A) (h : exn → prog A) :
  respects R m → (∀ e, respects R (h e)) → respects R (try_except m h).
Proof.
  intros Hm Hh. induction Hm; cbn; try (constructor; auto; fail). apply Hh.
Qed.

Lemma respects_try_finally {A : Type} (R : relation state) (m : prog A) (fin : prog unit) :
  respects R m → respects R fin → respects R (try_finally m fin).
Proof.
  intros Hm Hfin. unfold try_finally.
  apply respects_bind.
  - apply respects_try_except; [|intros; constructor].
    apply respects_bind; [done|intros; constructor].
  - intros [e|a]; (apply respects_bind; [done|intros; constructor]).
Qed.

Lemma respects_weaken {A : Type} (R R' : relation state) (p : prog A) :
  (∀ s s', R s s' → R' s s') → respects R p → respects R' p.
Proof. intros Hw Hp. induction Hp; constructor; auto. Qed.

Lemma respects_run {A : Type} (R : relation state) `{!PreOrder R}
    (w : script) (p : prog A) (s : state) :
  respects R p → R s (run w p s).2.
Proof.
  intros Hp. revert s.
  induction Hp as [| | |f k Hf _ IH|r k He Hd _ IH|c k _ _ IH]; intros s; cbn.
  - done.
  - done.
  - auto.
  - by etrans; [apply Hf|apply IH].
  - etrans; [apply He|]. etrans; [apply Hd|apply IH].
  - destruct (c s); [done|apply IH].
Qed.

Lemma respects_advance {A : Type} (R : relation state) `{!PreOrder R}
    (p : prog A) (s : state) :
  respects R p → R s (advance p s).2.
Proof.
  intros Hp. revert s.
  induction Hp as [| | |f k Hf _ IH|r k He Hd _ IH|c k Hs _ IH]; intros s; cbn.
  - done.
  - done.
  - auto.
  - by etrans; [apply Hf|apply IH].
  - apply He.
  - destruct (c s); [apply Hs|apply IH].
Qed.

#[global] Instance same_preorder {X : Type} (obs : state → X) : PreOrder (same obs).
Proof.
  split.
  - intros s. reflexivity.
  - intros s1 s2 s3 H1 H2. unfold same in *. congruence.
Qed.

#[global] Instance longer_preorder : PreOrder longer.
Proof.
  split.
  - intros s. unfold longer. reflexivity.
  - intros s1 s2 s3 H1 H2. unfold longer in *. by etrans.
Qed.

Lemma keeps_run {X A : Type} (obs : state → X) (w : script) (p : prog A) (s : state) :
  keeps obs p → obs (run w p s).2 = obs s.
Proof. intros Hp. by apply (respects_run (same obs)). Qed.


Lemma nonblocking_bind {A B : Type} (m : prog A) (f : A → prog B) :
  nonblocking m → (∀ a, nonblocking (f a)) → nonblocking (m ≫= f).
Proof.
  intros Hm Hf. induction Hm; cbn; try (constructor; auto; fail). apply Hf.
Qed.

Lemma nonblocking_try_except {A : Type} (m : prog A) (h : exn → prog A) :
  nonblocking m → (∀ e, nonblocking (h e)) → nonblocking (try_except m h).
Proof.
  intros Hm Hh. induction Hm; cbn; try (constructor; auto; fail). apply Hh.
Qed.

Lemma nonblocking_try_finally {A : Type} (m : prog A) (fin : prog unit) :
  nonblocking m → nonblocking fin → nonblocking (try_finally m fin).
Proof.
  intros Hm Hfin. unfold try_finally.
  apply nonblocking_bind.
  - apply nonblocking_try_except; [|intros; constructor].
    apply nonblocking_bind; [done|intros; constructor].
  - intros [e|a]; (apply nonblocking_bind; [done|intros; constructor]).
Qed.

Lemma nonblocking_run {A : Type} (w : script) (p : prog A) (s : state) :
  nonblocking p → (run w p s).1 ≠ Blocked.
Proof.
  intros Hp. revert s. induction Hp; intros s; cbn; auto; discriminate.
Qed.

(** ** Counting events *)

Lemma count_ev_app (p : event → bool) (l1 l2 : list event) :
  count_ev p (l1 ++ l2) = (count_ev p l1 + count_ev p l2)%nat.
Proof. induction l1 as [|e l1 IH]; cbn; [done|]. rewrite IH. lia. Qed.

Lemma count_ev_emit (p : event → bool) (ev : event) (s : state) :
  count_ev p (trace (emit ev s)) =
  (count_ev p (trace s) + (if p ev then 1 else 0))%nat.
Proof. cbn. rewrite count_ev_app. cbn. lia. Qed.

Lemma count_ev_emit_quiet (p : event → bool) (ev : event) (s : state) :
  p ev = false → count_ev p (trace (emit ev s)) = count_ev p (trace s).
Proof. intros H. rewrite count_ev_emit, H. lia. Qed.

(** Side conditions of the frame rules: the update leaves the observed
    components alone, or appends to the history. *)
Ltac frame_side :=
  intros;
  lazymatch goal with
  | |- same _ _ _ =>
      unfold same, refresh_calls, attempts, auth_lost_calls;
      rewrite ?count_ev_emit_quiet by reflexivity;
      reflexivity
  | |- longer _ _ =>
      unfold longer; cbn; first [reflexivity | apply prefix_app_r; reflexivity]
  end.

Create HintDb frames.

Ltac frame_by lem :=
  eapply respects_weaken; [|apply lem];
  let H := fresh in unfold same; intros ? ? H; injection H as ?; congruence.

Ltac frame_step :=
  lazymatch goal with
  | |- respects _ (mbind _ _) => apply respects_bind; [|intros ?]
  | |- respects _ (try_except _ _) => apply respects_try_except; [|intros ?]
  | |- respects _ (try_finally _ _) => apply respects_try_finally
  | |- respects _ (mret _) => apply respects_ret
  | |- respects _ (Ret _) => apply respects_ret
  | |- respects _ (Raise _) => apply respects_raise
  | |- respects _ (Read _) => apply respects_read; intros ?
  | |- respects _ (Upd _ _) => apply respects_upd; [frame_side|]
  | |- respects _ (Await _ _) => apply respects_await; [frame_side|frame_side|intros ?]
  | |- respects _ (WaitWhile _ _) => apply respects_wait; [frame_side|]
  | |- respects _ (if ?b then _ else _) => destruct b
  | |- respects _ (match ?x with _ => _ end) => destruct x
  | |- respects _ (modify _) => unfold modify
  | |- respects _ (set_self _) => unfold set_self
  | |- respects _ (log _ _) => unfold log
  | |- respects _ get_self => unfold get_self
  | |- respects _ now => unfold now
  | |- respects _ (getitem _ _) => unfold getitem
  | |- respects _ (alloc _) => unfold alloc
  | |- respects _ (deref _) => unfold deref
  | |- respects _ (assign _ _) => unfold assign
  | |- respects _ (lift _) => unfold lift
  | |- respects _ (parse_date _ _) => unfold parse_date
  | |- respects _ (request _ _ _ _) => unfold request
  | |- respects _ _ => solve [auto with frames]
  end.

Ltac frame := repeat frame_step.

(** A request leaves the client's attributes and the counters alone:
    it only logs, sends and touches header dictionaries. *)
Lemma _do_request_keeps method url headers add json :
  keeps (λ s, (self s, refresh_calls s, attempts s, auth_lost_calls s))
    (_do_request method url headers add json).
Proof. unfold _do_request. frame. Qed.

#[global] Hint Extern 1 (keeps _ (_do_request _ _ _ _ _)) =>
  frame_by _do_request_keeps : frames.

Lemma _do_options_request_keeps (CHROME_USERAGENT : string) :
  keeps (λ s, (self s, refresh_calls s, attempts s, auth_lost_calls s))
    (_do_options_request CHROME_USERAGENT).
Proof. unfold _do_options_request. frame. Qed.

#[global] Hint Extern 1 (keeps _ (_do_options_request _)) =>
  frame_by _do_options_request_keeps : frames.

(** [restore_credentials] writes credentials and headers only. *)
Lemma restore_credentials_keeps (CLUB_APPID : string) data :
  keeps (λ s, (auth_lost_callback (self s), refresh_in_progress (self s), trace s))
    (restore_credentials CLUB_APPID data).
Proof. unfold restore_credentials. frame. Qed.

Lemma _handle_authorization_response_keeps (CLUB_APPID : string) {zone : LocalTime} (parse : string → option Z) j :
  keeps (λ s, (auth_lost_callback (self s), refresh_in_progress (self s), trace s))
    (_handle_authorization_response CLUB_APPID parse j).
Proof.
  unfold _handle_authorization_response. frame.
  apply restore_credentials_keeps.
Qed.

Lemma trace_frame_counts (s s' : state) :
  trace s = trace s' →
  (refresh_calls s, attempts s, auth_lost_calls s) =
  (refresh_calls s', attempts s', auth_lost_calls s').
Proof. unfold refresh_calls, attempts, auth_lost_calls. by intros ->. Qed.

#[global] Hint Extern 1 (keeps _ (_handle_authorization_response _ _ _)) =>
  (eapply respects_weaken; [|apply _handle_authorization_response_keeps];
   let H := fresh in
   unfold same; intros ? ? H; injection H as ? ? H;
   apply trace_frame_counts in H; injection H as ?; congruence) : frames.

Lemma _refresh_remember_me_keeps (CLUB_APPID : string) (CHROME_USERAGENT : string) {zone : LocalTime} (parse : string → option Z) :
  keeps (λ s, (auth_lost_callback (self s), refresh_in_progress (self s),
               refresh_calls s, attempts s, auth_lost_calls s))
    (_refresh_remember_me CLUB_APPID CHROME_USERAGENT parse).
Proof. unfold _refresh_remember_me. frame. Qed.

Lemma _refresh_ticket_keeps (CLUB_APPID : string) (CHROME_USERAGENT : string) {zone : LocalTime} (parse : string → option Z) :
  keeps (λ s, (auth_lost_callback (self s), refresh_in_progress (self s),
               refresh_calls s, attempts s, auth_lost_calls s))
    (_refresh_ticket CLUB_APPID CHROME_USERAGENT parse).
Proof. unfold _refresh_ticket. frame. Qed.

Lemma get_credentials_keeps {X} (obs : state → X) : keeps obs get_credentials.
Proof. unfold get_credentials. frame. Qed.

(** The protocol neither touches the in-progress flag nor the
    callback, and it is none of the counted events. *)
Lemma refresh_protocol_keeps (CLUB_APPID : string) (CHROME_USERAGENT : string) {zone : LocalTime} (parse : string → option Z) :
  keeps (λ s, (auth_lost_callback (self s), refresh_in_progress (self s),
               refresh_calls s, attempts s, auth_lost_calls s))
    (refresh_protocol CLUB_APPID CHROME_USERAGENT parse).
Proof.
  unfold refresh_protocol. frame.
  - apply _refresh_remember_me_keeps.
  - apply _refresh_ticket_keeps.
  - apply get_credentials_keeps.
Qed.

Lemma _refresh_auth_keeps (CLUB_APPID : string) (CHROME_USERAGENT : string) {zone : LocalTime} (parse : string → option Z) :
  keeps (λ s, (auth_lost_callback (self s), attempts s, auth_lost_calls s))
    (_refresh_auth CLUB_APPID CHROME_USERAGENT parse).
Proof.
  unfold _refresh_auth. frame.
  frame_by refresh_protocol_keeps.
Qed.

Lemma attempt_keeps method url headers add json :
  keeps (λ s, (self s, refresh_calls s, auth_lost_calls s))
    (attempt method url headers add json).
Proof. unfold attempt. frame. Qed.

Lemma refresh_needed_keeps {zone : LocalTime} :
  keeps (λ s, (self s, refresh_calls s, attempts s, auth_lost_calls s))
    refresh_needed.
Proof. unfold refresh_needed. frame. Qed.

(** Everything only appends to the history. *)
Lemma _do_request_grows method url headers add json :
  grows (_do_request method url headers add json).
Proof. unfold _do_request. frame. Qed.

#[global] Hint Resolve _do_request_grows : frames.

Lemma _do_options_request_grows (CHROME_USERAGENT : string) : grows (_do_options_request CHROME_USERAGENT).
Proof. unfold _do_options_request. frame. Qed.

Lemma restore_credentials_grows (CLUB_APPID : string) data : grows (restore_credentials CLUB_APPID data).
Proof. unfold restore_credentials. frame. Qed.

Lemma _handle_authorization_response_grows (CLUB_APPID : string) {zone : LocalTime} (parse : string → option Z) j :
  grows (_handle_authorization_response CLUB_APPID parse j).
Proof.
  unfold _handle_authorization_response. frame. apply restore_credentials_grows.
Qed.

#[global] Hint Resolve _do_options_request_grows _handle_authorization_response_grows : frames.

Lemma _refresh_remember_me_grows (CLUB_APPID : string) (CHROME_USERAGENT : string) {zone : LocalTime} (parse : string → option Z) :
  grows (_refresh_remember_me CLUB_APPID CHROME_USERAGENT parse).
Proof. unfold _refresh_remember_me. frame. Qed.

Lemma _refresh_ticket_grows (CLUB_APPID : string) (CHROME_USERAGENT : string) {zone : LocalTime} (parse : string → option Z) :
  grows (_refresh_ticket CLUB_APPID CHROME_USERAGENT parse).
Proof. unfold _refresh_ticket. frame. Qed.

#[global] Hint Resolve _refresh_remember_me_grows _refresh_ticket_grows : frames.

Lemma refresh_protocol_grows (CLUB_APPID : string) (CHROME_USERAGENT : string) {zone : LocalTime} (parse : string → option Z) :
  grows (refresh_protocol CLUB_APPID CHROME_USERAGENT parse).
Proof. unfold refresh_protocol, get_credentials. frame. Qed.

#[global] Hint Resolve refresh_protocol_grows : frames.

Lemma _refresh_auth_grows (CLUB_APPID : string) (CHROME_USERAGENT : string) {zone : LocalTime} (parse : string → option Z) : grows (_refresh_auth CLUB_APPID CHROME_USERAGENT parse).
Proof. unfold _refresh_auth. frame. Qed.

Lemma attempt_grows method url headers add json :
  grows (attempt method url headers add json).
Proof. unfold attempt. frame. Qed.

Lemma refresh_needed_grows {zone : LocalTime} : grows refresh_needed.
Proof. unfold refresh_needed. frame. Qed.

#[global] Hint Resolve _refresh_auth_grows attempt_grows refresh_needed_grows : frames.

Lemma fallback_grows (CLUB_APPID : string) (CHROME_USERAGENT : string) {zone : LocalTime} (parse : string → option Z) method url headers add json e :
  grows (fallback CLUB_APPID CHROME_USERAGENT parse method url headers add json e).
Proof. unfold fallback. frame. Qed.

Lemma on_failure_grows e : grows (on_failure e).
Proof. unfold on_failure. frame. Qed.

#[global] Hint Resolve fallback_grows on_failure_grows : frames.

Lemma _do_request_safe_grows (CLUB_APPID : string) (CHROME_USERAGENT : string) {zone : LocalTime} (parse : string → option Z) method url headers add json :
  grows (_do_request_safe CLUB_APPID CHROME_USERAGENT parse method url headers add json).
Proof. unfold _do_request_safe, guarded. frame. Qed.


(** ** Termination of the loop-free methods *)

Ltac nb_step :=
  lazymatch goal with
  | |- nonblocking (mbind _ _) => apply nonblocking_bind; [|intros ?]
  | |- nonblocking (try_except _ _) => apply nonblocking_try_except; [|intros ?]
  | |- nonblocking (try_finally _ _) => apply nonblocking_try_finally
  | |- nonblocking (mret _) => apply nb_ret
  | |- nonblocking (Ret _) => apply nb_ret
  | |- nonblocking (Raise _) => apply nb_raise
  | |- nonblocking (Read _) => apply nb_read; intros ?
  | |- nonblocking (Upd _ _) => apply nb_upd
  | |- nonblocking (Await _ _) => apply nb_await; intros ?
  | |- nonblocking (if ?b then _ else _) => destruct b
  | |- nonblocking (match ?x with _ => _ end) => destruct x
  end.

Ltac nb :=
  unfold _do_request_safe, _refresh_auth, refresh_protocol, _refresh_remember_me,
    _refresh_ticket, _handle_authorization_response, restore_credentials,
    get_credentials, _do_options_request, attempt, refresh_needed, fallback,
    on_failure, guarded, _do_request,
    request, parse_date, lift, assign, deref, alloc, getitem, now, log,
    set_self, get_self, modify;
  repeat nb_step.

Lemma refresh_protocol_nonblocking (CLUB_APPID CHROME_USERAGENT : string)
    {zone : LocalTime} (parse : string → option Z) :
  nonblocking (refresh_protocol CLUB_APPID CHROME_USERAGENT parse).
Proof. nb. Qed.

(** ** Session State: [restore_credentials] *)

Section SessionState.

Context (CLUB_APPID : string).

(** The effect of [restore_credentials] on a bundle that has the
    three required keys. *)
Lemma restore_credentials_returns (w : script) (data : dict) (s : state) t i u :
  data !! "ticket" = Some t →
  data !! "sessionId" = Some i →
  data !! "userId" = Some u →
  let c := self s in
  let c' :=
    mkClient (auth_lost_callback c) t i
      (if truthy (dict_get data "rememberMeTicket" PNone)
       then dict_get data "rememberMeTicket" PNone else refresh_token c)
      (dict_get data "refreshTime" (PStr "0"))
      u
      (if truthy (dict_get data "username" PNone)
       then dict_get data "username" PNone else user_name c)
      (refresh_in_progress c) (length (heap s)) in
  run w (restore_credentials CLUB_APPID data) s =
  (Returned tt,
   mkState c' (heap s ++ [authenticated_headers CLUB_APPID c'])
     (clock s) (sent s) (trace s)).
Proof.
  intros Ht Hi Hu. unfold restore_credentials, getitem, dict_get.
  cbn. rewrite Ht. cbn. rewrite Hi. cbn. rewrite Hu. cbn.
  destruct (data !! "username") as [v|]; cbn;
    [destruct (truthy v); cbn|];
    (destruct (data !! "rememberMeTicket") as [v'|]; cbn;
     [destruct (truthy v'); cbn|]); reflexivity.
Qed.

(** What is left behind when a required key is missing. *)
Lemma restore_credentials_no_ticket (w : script) (data : dict) (s : state) :
  data !! "ticket" = None →
  run w (restore_credentials CLUB_APPID data) s = (Raised (KeyError "ticket"), s).
Proof.
  intros Ht. unfold restore_credentials, getitem. cbn. by rewrite Ht.
Qed.

Lemma restore_credentials_no_session (w : script) (data : dict) (s : state) t :
  data !! "ticket" = Some t →
  data !! "sessionId" = None →
  run w (restore_credentials CLUB_APPID data) s =
  (Raised (KeyError "sessionId"), upd_self (with_token t) s).
Proof.
  intros Ht Hi. unfold restore_credentials, getitem. cbn.
  rewrite Ht. cbn. by rewrite Hi.
Qed.

Lemma restore_credentials_no_user (w : script) (data : dict) (s : state) t i :
  data !! "ticket" = Some t →
  data !! "sessionId" = Some i →
  data !! "userId" = None →
  run w (restore_credentials CLUB_APPID data) s =
  (Raised (KeyError "userId"),
   upd_self (with_session_id i) (upd_self (with_token t) s)).
Proof.
  intros Ht Hi Hu. unfold restore_credentials, getitem. cbn.
  rewrite Ht. cbn. rewrite Hi. cbn. by rewrite Hu.
Qed.

(** C6 (as amended).  For every state and every bundle: a bundle
    without [username] leaves [user_name] as it was and a bundle
    without [rememberMeTicket] leaves [refresh_token] as it was; a
    bundle without [refreshTime] that is restored successfully sets
    [refresh_time] to the default string ['0']. *)
Theorem restore_credentials_omitted_fields (w : script) (data : dict) (s : state) :
  let r := run w (restore_credentials CLUB_APPID data) s in
  (data !! "username" = None → user_name (self r.2) = user_name (self s)) ∧
  (data !! "rememberMeTicket" = None →
   refresh_token (self r.2) = refresh_token (self s)) ∧
  (data !! "refreshTime" = None → r.1 = Returned tt →
   refresh_time (self r.2) = PStr "0").
Proof.
  cbn zeta.
  destruct (data !! "ticket") as [t|] eqn:Ht;
    [|rewrite restore_credentials_no_ticket by done; by repeat split].
  destruct (data !! "sessionId") as [i|] eqn:Hi;
    [|rewrite (restore_credentials_no_session _ _ _ t) by done; by repeat split].
  destruct (data !! "userId") as [u|] eqn:Hu;
    [|rewrite (restore_credentials_no_user _ _ _ t i) by done; by repeat split].
  rewrite (restore_credentials_returns _ _ _ t i u) by done. cbn.
  unfold dict_get. repeat split.
  - by intros ->.
  - by intros ->.
  - by intros ->.
Qed.

(** C7 (as amended).  [restore_credentials] assigns its fields one
    after the other.  From a bundle with both [ticket] and
    [sessionId] it leaves [token] and [session_id] equal to them,
    whether it returns or raises later, so that the invariant holds
    afterwards exactly when the two are both null or both non-null;
    without [ticket] it raises
    and changes nothing; with [ticket] but without [sessionId] it
    raises after [token] has been overwritten, [session_id] keeping
    its earlier value. *)
Theorem restore_credentials_ticket_and_session (w : script) (data : dict) (s : state) :
  let r := run w (restore_credentials CLUB_APPID data) s in
  match data !! "ticket", data !! "sessionId" with
  | None, _ => r = (Raised (KeyError "ticket"), s)
  | Some t, None =>
      r.1 = Raised (KeyError "sessionId") ∧
      token (self r.2) = t ∧ session_id (self r.2) = session_id (self s)
  | Some t, Some i =>
      token (self r.2) = t ∧ session_id (self r.2) = i ∧
      (both_or_neither (self r.2) ↔ is_none t = is_none i)
  end.
Proof.
  cbn zeta.
  destruct (data !! "ticket") as [t|] eqn:Ht;
    [|by rewrite restore_credentials_no_ticket].
  destruct (data !! "sessionId") as [i|] eqn:Hi;
    [|by rewrite (restore_credentials_no_session _ _ _ t)].
  destruct (data !! "userId") as [u|] eqn:Hu.
  - by rewrite (restore_credentials_returns _ _ _ t i u).
  - by rewrite (restore_credentials_no_user _ _ _ t i).
Qed.

End SessionState.

(** ** HTTP Request Executor: [_do_request] *)

Lemma run__do_request (w : script) method url headers add json (s : state) :
  let s2 := prepared headers add s in
  let hs := default ∅ (heap s2 !! headers_ref headers s) in
  let d := w (sent s) in
  let s3 := deliver d (emit (EvSend (mkRequest method url hs json)) s2) in
  run w (_do_request method url headers add json) s =
  match answer d with
  | Json j => (Returned j, emit (EvLog "info" "Response status") s3)
  | Fails e => (Raised e, s3)
  end.
Proof.
  unfold _do_request, prepared, headers_ref.
  destruct headers as [d0|], add as [a|]; cbn;
    by destruct (answer (w (sent s))).
Qed.

(** [copy_into] is a left-biased union. *)
Lemma copy_into_union (src dst : dict) : copy_into src dst = src ∪ dst.
Proof.
  unfold copy_into.
  apply (map_fold_weak_ind (λ r m, r = m ∪ dst)).
  - by rewrite (left_id_L ∅ (∪)).
  - intros k v m r Hk ->. by rewrite insert_union_l.
Qed.

Lemma copy_into_lookup (src dst : dict) (k : string) :
  copy_into src dst !! k =
  match src !! k with Some v => Some v | None => dst !! k end.
Proof.
  rewrite copy_into_union. destruct (src !! k) as [v|] eqn:Hk.
  - by apply lookup_union_Some_l.
  - by rewrite lookup_union_r.
Qed.

Lemma sent_requests_emit (ev : event) (s : state) :
  sent_requests (emit ev s) =
  (sent_requests s ++ match ev with EvSend r => [r] | _ => [] end)%list.
Proof.
  unfold sent_requests. cbn. rewrite omap_app. by destruct ev.
Qed.

Lemma default_headers_init (CLUB_APPID CHROME_USERAGENT : string) (t : Z) :
  default_headers (__init__ CLUB_APPID CHROME_USERAGENT t) =
  init_headers CLUB_APPID CHROME_USERAGENT.
Proof. reflexivity. Qed.

(** The default headers built by [__init__] carry [Ubi-AppId] and
    [User-Agent]; the two authentication headers are present with the
    value [None]. *)
Lemma init_headers_lookup (CLUB_APPID CHROME_USERAGENT : string) :
  let h := init_headers CLUB_APPID CHROME_USERAGENT in
  h !! "Ubi-AppId" = Some (PStr CLUB_APPID) ∧
  h !! "User-Agent" = Some (PStr CHROME_USERAGENT) ∧
  h !! "Authorization" = Some PNone ∧
  h !! "Ubi-SessionId" = Some PNone.
Proof. done. Qed.

(** C9.  After [restore_credentials] has succeeded, a request made
    with the session's default headers is sent with exactly [Ubi-AppId],
    [Authorization: Ubi_v1 t=<ticket>] and [Ubi-SessionId: <sessionId>]:
    the two authentication headers are there, [User-Agent] is not. *)
Theorem default_headers_after_restore (CLUB_APPID : string) (w w' : script)
    (data : dict) (s : state) t i u method url json :
  data !! "ticket" = Some t →
  data !! "sessionId" = Some i →
  data !! "userId" = Some u →
  let s1 := (run w (restore_credentials CLUB_APPID data) s).2 in
  let s2 := (run w' (_do_request method url None None json) s1).2 in
  ∃ r, sent_requests s2 = (sent_requests s ++ [r])%list ∧
       req_headers r =
         <["Ubi-AppId" := PStr CLUB_APPID]>
         (<["Authorization" := PStr ("Ubi_v1 t=" ++ py_str t)]>
         (<["Ubi-SessionId" := i]> ∅)) ∧
       req_headers r !! "User-Agent" = None.
Proof.
  intros Ht Hi Hu. cbn zeta.
  rewrite (restore_credentials_returns _ _ _ _ t i u) by done. cbn [snd].
  rewrite run__do_request. cbn zeta.
  eexists. split; [|split].
  - destruct (answer _); cbn [snd];
      rewrite ?sent_requests_emit; unfold deliver, sent_requests; cbn;
      rewrite ?omap_app; cbn; rewrite ?app_nil_r; reflexivity.
  - cbn. rewrite lookup_app_r by done. by rewrite Nat.sub_diag.
  - cbn. rewrite lookup_app_r by done. by rewrite Nat.sub_diag.
Qed.

(** ** Expiry estimate: [_handle_authorization_response] *)


(** [_handle_authorization_response], evaluated: everything that can
    fail before [restore_credentials] is called leaves the state as it
    is. *)
Lemma run__handle_authorization_response (CLUB_APPID : string) {zone : LocalTime}
    (parse : string → option Z) (w : script) (j : dict) (s : state) :
  run w (_handle_authorization_response CLUB_APPID parse j) s =
  match j !! "expiration" with
  | None => (Raised (KeyError "expiration"), s)
  | Some (PStr es) =>
      match parse es with
      | None => (Raised ValueError, s)
      | Some te =>
          match j !! "serverTime" with
          | None => (Raised (KeyError "serverTime"), s)
          | Some (PStr ss) =>
              match parse ss with
              | None => (Raised ValueError, s)
              | Some ts =>
                  match datetime_add (clock s) (te - ts) with
                  | inl e => (Raised e, s)
                  | inr d =>
                      match timestamp d with
                      | inl e => (Raised e, s)
                      | inr x =>
                          run w (restore_credentials CLUB_APPID
                                   (<["refreshTime" := PInt (round_timestamp x)]> j)) s
                      end
                  end
              end
          | Some _ => (Raised TypeError, s)
          end
      end
  | Some _ => (Raised TypeError, s)
  end.
Proof.
  unfold _handle_authorization_response, now, getitem, parse_date.
  cbn -[restore_credentials].
  destruct (j !! "expiration") as [[| | |es]|]; cbn -[restore_credentials]; try done.
  destruct (parse es) as [te|]; cbn -[restore_credentials]; try done.
  destruct (j !! "serverTime") as [[| | |ss]|]; cbn -[restore_credentials]; try done.
  destruct (parse ss) as [ts|]; cbn -[restore_credentials]; try done.
  destruct (datetime_add (clock s) (te - ts)) as [e|d]; cbn -[restore_credentials];
    try done.
  by destruct (timestamp d) as [e|x].
Qed.


(** ** Authenticated Call Wrapper: [_do_request_safe] *)

Lemma run_modify (w : script) (f : state → state) (s : state) :
  run w (modify f) s = (Returned tt, f s).
Proof. reflexivity. Qed.

Lemma run_log (w : script) (level msg : string) (s : state) :
  run w (log level msg) s = (Returned tt, emit (EvLog level msg) s).
Proof. reflexivity. Qed.


Section Wrapper.

Context (CLUB_APPID CHROME_USERAGENT : string) {zone : LocalTime} (parse : string → option Z).

Local Abbreviation coordinator := (_refresh_auth CLUB_APPID CHROME_USERAGENT parse).
Local Abbreviation retry := (fallback CLUB_APPID CHROME_USERAGENT parse).
Local Abbreviation wrapper :=
  (_do_request_safe CLUB_APPID CHROME_USERAGENT parse).

(** The expiry test, evaluated. *)
Lemma run_refresh_needed (w : script) (s : state) :
  run w refresh_needed s =
  if truthy (refresh_token (self s)) then (Returned false, s)
  else
    let s0 := emit (EvLog "debug" "rememberMeTicket expiration time") s in
    if is_none (refresh_time (self s)) then (Returned true, s0)
    else
      match py_int (refresh_time (self s)) with
      | inr n =>
          match fromtimestamp n with
          | inr d => (Returned (d <? clock s), s0)
          | inl e => (Raised e, s0)
          end
      | inl e => (Raised e, s0)
      end.
Proof.
  unfold refresh_needed. cbn.
  destruct (truthy (refresh_token (self s))); cbn; [done|].
  destruct (is_none (refresh_time (self s))); cbn; [done|].
  destruct (py_int (refresh_time (self s))) as [e|n]; cbn; [done|].
  by destruct (fromtimestamp n).
Qed.

(** The test and its formula agree. *)
Lemma run_refresh_needed_test (w : script) (s : state) :
  (run w refresh_needed s).1 =
  match expiry_test (self s) (clock s) with
  | inr needed => Returned needed
  | inl e => Raised e
  end.
Proof.
  rewrite run_refresh_needed. unfold expiry_test.
  destruct (truthy (refresh_token (self s))); [done|]. cbn zeta.
  destruct (is_none (refresh_time (self s))); [done|].
  destruct (py_int (refresh_time (self s))) as [e|n]; [done|].
  by destruct (fromtimestamp n).
Qed.


(** The outer handlers, evaluated: the error is always re-raised. *)
Lemma run_on_failure (w : script) (e : exn) (s : state) :
  run w (on_failure e) s =
  (Raised e,
   if is_auth_error e then
     let s1 :=
       emit (EvLog "debug" "Unable to refresh authentication calling auth lost") s in
     match auth_lost_callback (self s) with
     | Some cb => emit (EvAuthLost cb) s1
     | None => s1
     end
   else emit (EvLog "debug" "Refresh workflow has failed:") s).
Proof.
  unfold on_failure. destruct (is_auth_error e); cbn; [|done].
  by destruct (auth_lost_callback (self s)).
Qed.

Local Abbreviation body := (guarded CLUB_APPID CHROME_USERAGENT parse).

Lemma run__do_request_safe (w : script) method url headers add json (s : state) :
  run w (wrapper method url headers add json) s =
  or_else (run w (body method url headers add json) s)
    (λ e s', run w (on_failure e) s').
Proof. apply run_try_except. Qed.

Lemma guarded_keeps method url headers add json :
  keeps (λ s, (auth_lost_callback (self s), auth_lost_calls s))
    (body method url headers add json).
Proof.
  unfold guarded, fallback. frame.
  - frame_by refresh_needed_keeps.
  - frame_by _refresh_auth_keeps.
  - frame_by attempt_keeps.
  - frame_by attempt_keeps.
  - frame_by _refresh_auth_keeps.
  - frame_by attempt_keeps.
Qed.

(** C4.  A call of [_do_request_safe] ends the way its guarded body
    ends.  When that is an [AuthenticationRequired] or [AccessDenied]
    error, the registered auth-lost callback, if there is one, is called
    exactly once, as the last thing before the error is re-raised; when
    it is any other exception, the failure is logged and re-raised and
    the callback is not called; nor is it called when the call returns. *)
Theorem auth_lost_callback_once (w : script) method url headers add json (s : state) :
  let r := run w (wrapper method url headers add json) s in
  r.1 = (run w (body method url headers add json) s).1 ∧
  match r.1 with
  | Raised e =>
      if is_auth_error e then
        match auth_lost_callback (self s) with
        | Some cb =>
            auth_lost_calls r.2 = S (auth_lost_calls s) ∧
            last (trace r.2) = Some (EvAuthLost cb)
        | None => auth_lost_calls r.2 = auth_lost_calls s
        end
      else
        auth_lost_calls r.2 = auth_lost_calls s ∧
        last (trace r.2) = Some (EvLog "debug" "Refresh workflow has failed:")
  | _ => auth_lost_calls r.2 = auth_lost_calls s
  end.
Proof.
  cbn zeta. rewrite run__do_request_safe.
  pose proof (keeps_run _ w _ s (guarded_keeps method url headers add json)) as Hk.
  destruct (run w (body method url headers add json) s) as [[a|e|] s1];
    cbn in Hk; injection Hk as Hcb Hn; cbn [or_else fst snd].
  - done.
  - rewrite run_on_failure. cbn [fst snd]. split; [done|].
    destruct (is_auth_error e).
    + rewrite Hcb. destruct (auth_lost_callback (self s)) as [cb|].
      * split; [|cbn; by rewrite last_snoc].
        unfold auth_lost_calls in *.
        rewrite count_ev_emit, count_ev_emit_quiet by done. cbn. lia.
      * unfold auth_lost_calls in *. by rewrite count_ev_emit_quiet.
    + split; [|cbn; by rewrite last_snoc].
      unfold auth_lost_calls in *. by rewrite count_ev_emit_quiet.
  - done.
Qed.







Lemma on_failure_keeps (e : exn) :
  keeps (λ s, (refresh_calls s, attempts s)) (on_failure e).
Proof. unfold on_failure. frame. Qed.

Lemma attempt_counts (w : script) method url headers add json (s : state) :
  let s' := (run w (attempt method url headers add json) s).2 in
  attempts s' = S (attempts s) ∧ refresh_calls s' = refresh_calls s.
Proof.
  cbn zeta. unfold attempt. rewrite run_bind, run_modify. cbn [and_then].
  pose proof (keeps_run _ w _ (emit EvAttempt s)
                (_do_request_keeps method url headers add json)) as Hk.
  injection Hk as _ Hc Ha _. rewrite Ha, Hc.
  unfold attempts, refresh_calls.
  rewrite count_ev_emit, count_ev_emit_quiet by done. cbn. lia.
Qed.

Lemma coordinator_counts (w : script) (s : state) :
  let s' := (run w coordinator s).2 in
  refresh_calls s' = S (refresh_calls s) ∧ attempts s' = attempts s.
Proof.
  cbn zeta. unfold _refresh_auth. rewrite run_bind, run_modify. cbn [and_then].
  match goal with
  | |- context [run w ?R ?s1] =>
      assert (keeps (λ s, (refresh_calls s, attempts s)) R) as Hk
  end.
  { frame. frame_by refresh_protocol_keeps. }
  apply (keeps_run _ w _ (emit EvEnterRefresh s)) in Hk.
  injection Hk as Hc Ha. split.
  - etrans; [exact Hc|]. unfold refresh_calls. rewrite count_ev_emit. cbn. lia.
  - etrans; [exact Ha|]. unfold attempts. by rewrite count_ev_emit_quiet.
Qed.


End Wrapper.

(** ** Refresh Coordinator: [_refresh_auth] *)

Section Coordinator.

Context (CLUB_APPID CHROME_USERAGENT : string) {zone : LocalTime} (parse : string → option Z).

Local Abbreviation coordinator := (_refresh_auth CLUB_APPID CHROME_USERAGENT parse).
Local Abbreviation protocol := (refresh_protocol CLUB_APPID CHROME_USERAGENT parse).

(** The owner's run: the protocol between setting and clearing the flag. *)
Lemma run_coordinator_owner (w : script) (s : state) :
  refresh_in_progress (self s) = false →
  let s1 := upd_self (with_refresh_in_progress true) (emit EvEnterRefresh s) in
  let p := run w protocol s1 in
  run w coordinator s =
  match p.1 with
  | Blocked => p
  | _ => (p.1, upd_self (with_refresh_in_progress false) p.2)
  end.
Proof.
  intros Hflag. cbn zeta. unfold _refresh_auth.
  rewrite run_bind, run_modify. cbn [and_then].
  rewrite run_bind. unfold get_self. cbn [run and_then].
  change (refresh_in_progress (self (emit EvEnterRefresh s)))
    with (refresh_in_progress (self s)).
  rewrite Hflag. unfold set_self. rewrite run_bind, run_modify. cbn [and_then].
  rewrite run_try_finally.
  by destruct (run w protocol _) as [[[]|e|] s2].
Qed.

(** A caller that finds the flag set starts polling. *)
Lemma advance_coordinator_busy (s : state) :
  refresh_in_progress (self s) = true →
  advance coordinator s =
  (waiting,
   emit EvSleep
     (emit (EvLog "info" "Refreshing already in progress.")
        (emit EvEnterRefresh s))).
Proof.
  intros Hflag. unfold _refresh_auth. cbn. rewrite Hflag. cbn. by rewrite Hflag.
Qed.

End Coordinator.

(** A polling caller either keeps polling or returns normally. *)
Lemma advance_waiting (s : state) :
  advance (WaitWhile (λ s, refresh_in_progress (self s)) (Ret tt)) s =
  if refresh_in_progress (self s) then (waiting, emit EvSleep s)
  else (Done (Returned tt), s).
Proof. reflexivity. Qed.


Lemma sched_cons {A : Type} (j : nat) (d : delivery) (steps : list (nat * delivery))
    (cfg : list (thread A) * state) :
  sched ((j, d) :: steps) cfg = sched steps (resume j d cfg).
Proof. reflexivity. Qed.

Lemma sched_app {A : Type} (steps1 steps2 : list (nat * delivery))
    (cfg : list (thread A) * state) :
  sched (steps1 ++ steps2) cfg = sched steps2 (sched steps1 cfg).
Proof. apply fold_left_app. Qed.



(** ** The two semantics agree *)

(** A coroutine that runs alone on the event loop, served by the
    script, ends as [run] says. *)
Lemma advance_sched {A : Type} (w : script) (p : prog A) (s : state) :
  (run w p s).1 ≠ Blocked →
  ∃ steps,
    sched steps ([(advance p s).1], (advance p s).2) =
    ([Done (run w p s).1], (run w p s).2).
Proof.
  revert s. induction p as [a|e|k IH|f k IH|r k IH|c k IH]; intros s Hnb; cbn in *.
  - by exists [].
  - by exists [].
  - by apply IH.
  - by apply IH.
  - destruct (IH (answer (w (sent s))) (deliver (w (sent s)) (emit (EvSend r) s)) Hnb)
      as [steps Hsteps].
    exists ((0%nat, w (sent s)) :: steps). rewrite sched_cons. unfold resume. cbn.
    destruct (advance (k (answer (w (sent s)))) _) as [t s']. exact Hsteps.
  - destruct (c s); [done|]. by apply IH.
Qed.

Lemma run_is_a_schedule {A : Type} (w : script) (p : prog A) (s : state) :
  (run w p s).1 ≠ Blocked →
  ∃ steps,
    sched steps ([Ready p], s) = ([Done (run w p s).1], (run w p s).2).
Proof.
  intros Hnb. destruct (advance_sched w p s Hnb) as [steps Hsteps].
  exists ((0%nat, mkDelivery (clock s) (Json ∅)) :: steps).
  rewrite sched_cons. unfold resume. cbn.
  replace (at_clock (clock s) s) with s by (by destruct s).
  destruct (advance p s) as [t s']. exact Hsteps.
Qed.

(** ** Headers added to the session's own dictionary *)

Lemma run_perform (w : script) (c : call) (s : state) :
  let s2 := prepared (call_headers c) (call_add_to_headers c) s in
  let hs := default ∅ (heap s2 !! headers_ref (call_headers c) s) in
  let d := w (sent s) in
  let s3 := deliver d
    (emit (EvSend (mkRequest (call_method c) (call_url c) hs (call_json c))) s2) in
  run w (perform c) s =
  (Returned tt,
   match answer d with
   | Json _ => emit (EvLog "info" "Response status") s3
   | Fails _ => s3
   end).
Proof.
  cbn zeta. unfold perform.
  rewrite run_try_except, run_bind, run__do_request. cbn zeta.
  by destruct (answer (w (sent s))).
Qed.

Lemma subseteq_union_spared (add a old : dict) :
  add ⊆ old → a ##ₘ add → add ⊆ a ∪ old.
Proof.
  intros Hsub Hdisj. apply map_subseteq_spec. intros k v Hk.
  rewrite lookup_union_r by (by eapply map_disjoint_Some_r).
  by eapply lookup_weaken.
Qed.

(** Preparing the headers of a later call leaves the added headers in
    the session's dictionary. *)
Lemma prepared_keeps_added (add : dict) (hd ad : option dict) (s : state) :
  (session_headers (self s) < length (heap s))%nat →
  add ⊆ default_headers s →
  (hd = None → ∀ a, ad = Some a → a ##ₘ add) →
  let s2 := prepared hd ad s in
  self s2 = self s ∧
  (session_headers (self s) < length (heap s2))%nat ∧
  add ⊆ default_headers s2 ∧
  sent_requests s2 = sent_requests s ∧
  (hd = None → add ⊆ default ∅ (heap s2 !! headers_ref hd s)).
Proof.
  intros Hlen Hsub Hsp. cbn zeta. unfold default_headers in *.
  set (h := session_headers (self s)) in *.
  destruct hd as [d0|], ad as [a|]; unfold prepared, headers_ref; cbn; fold h.
  - split; [done|]. split; [rewrite length_insert, length_app; lia|].
    split; [|done].
    rewrite list_lookup_insert_ne by lia. by rewrite lookup_app_l.
  - split; [done|]. split; [rewrite length_app; lia|].
    split; [|done]. by rewrite lookup_app_l.
  - specialize (Hsp eq_refl a eq_refl).
    rewrite list_lookup_insert_eq by done. cbn.
    rewrite length_insert, copy_into_union.
    split; [done|]. split; [done|].
    split; [by apply subseteq_union_spared|].
    split; [|intros _; by apply subseteq_union_spared].
    unfold sent_requests. cbn. rewrite omap_app. cbn. by rewrite app_nil_r.
  - split; [done|]. split; [done|]. split; [done|]. split; [|done].
    unfold sent_requests. cbn. rewrite omap_app. cbn. by rewrite app_nil_r.
Qed.

(** One later call keeps the added headers in the default dictionary
    and, when it uses the default headers, sends them. *)
Lemma perform_keeps_added (w : script) (add : dict) (c : call) (s : state) :
  (session_headers (self s) < length (heap s))%nat →
  add ⊆ default_headers s →
  spares add c →
  let s' := (run w (perform c) s).2 in
  session_headers (self s') = session_headers (self s) ∧
  (session_headers (self s') < length (heap s'))%nat ∧
  add ⊆ default_headers s' ∧
  ∃ r, sent_requests s' = (sent_requests s ++ [r])%list ∧ carries add c r.
Proof.
  intros Hlen Hsub Hsp. cbn zeta. rewrite run_perform. cbn zeta. cbn [snd].
  destruct (prepared_keeps_added add (call_headers c) (call_add_to_headers c) s
              Hlen Hsub Hsp) as (Hself & Hlen2 & Hsub2 & Hsent & Hdef).
  set (s2 := prepared _ _ s) in *.
  set (r := mkRequest _ _ _ _).
  assert (carries add c r) as Hr by (by repeat split).
  unfold default_headers in *. rewrite Hself in Hsub2.
  destruct (answer (w (sent s))); cbn; rewrite Hself;
    (split; [done|]); (split; [done|]); (split; [done|]);
    exists r; (split; [|done]);
    unfold sent_requests in *; rewrite !omap_app, Hsent; cbn;
    by rewrite ?app_nil_r.
Qed.

Lemma perform_all_keeps_added (w : script) (add : dict) (later : list call) (s : state) :
  (session_headers (self s) < length (heap s))%nat →
  add ⊆ default_headers s →
  Forall (spares add) later →
  let s' := (run w (perform_all later) s).2 in
  session_headers (self s') = session_headers (self s) ∧
  add ⊆ default_headers s' ∧
  ∃ rs, sent_requests s' = (sent_requests s ++ rs)%list ∧
        Forall2 (carries add) later rs.
Proof.
  revert s. induction later as [|c later IH]; intros s Hlen Hsub Hall; cbn zeta.
  - cbn. repeat split; [done|]. exists []. by rewrite app_nil_r.
  - apply Forall_cons in Hall as [Hc Hall].
    change (perform_all (c :: later)) with (perform c;; perform_all later).
    rewrite run_bind.
    destruct (perform_keeps_added w add c s Hlen Hsub Hc) as (Hh & Hlen1 & Hsub1 & r & Hr & Hcar).
    rewrite run_perform in *. cbn zeta in *. cbn [and_then snd] in *.
    set (s1 := match answer _ with Json _ => _ | Fails _ => _ end) in *.
    destruct (IH s1 Hlen1 Hsub1 Hall) as (Hh2 & Hsub2 & rs & Hrs & Hcars).
    split; [congruence|]. split; [done|].
    exists (r :: rs). split; [|by constructor].
    rewrite Hrs, Hr. by rewrite <- app_assoc.
Qed.

(** C10 (as amended).  A call of [_do_request] with [add_to_headers]
    and without [headers] writes the additions into the dictionary
    object bound to [self._session.headers]: the reference is unchanged,
    the object now holds the additions over its earlier entries, and the
    request is sent with them.  Every later call of [_do_request] that
    uses the default headers sends them as well, for as long as the
    session keeps that dictionary object and no later [add_to_headers]
    names one of the same headers. *)
Theorem added_headers_persist (w : script) method url (add : dict) json (s : state) :
  (session_headers (self s) < length (heap s))%nat →
  let s1 := (run w (_do_request method url None (Some add) json) s).2 in
  session_headers (self s1) = session_headers (self s) ∧
  default_headers s1 = add ∪ default_headers s ∧
  (∃ r, sent_requests s1 = (sent_requests s ++ [r])%list ∧
        req_headers r = add ∪ default_headers s) ∧
  ∀ (w' : script) (later : list call),
    Forall (spares add) later →
    let s2 := (run w' (perform_all later) s1).2 in
    session_headers (self s2) = session_headers (self s) ∧
    add ⊆ default_headers s2 ∧
    ∃ rs, sent_requests s2 = (sent_requests s1 ++ rs)%list ∧
          Forall2 (carries add) later rs.
Proof.
  intros Hlen. cbn zeta. rewrite run__do_request. cbn zeta.
  set (s2 := prepared None (Some add) s).
  assert (self s2 = self s ∧ heap s2 = <[session_headers (self s) :=
            add ∪ default_headers s]> (heap s) ∧
          sent_requests s2 = sent_requests s) as (Hself & Hheap & Hsent).
  { unfold s2, prepared, headers_ref, default_headers. cbn.
    rewrite copy_into_union. repeat split.
    unfold sent_requests. cbn. rewrite omap_app. cbn. by rewrite app_nil_r. }
  set (r := mkRequest _ _ _ _).
  assert (req_headers r = add ∪ default_headers s) as Hr.
  { unfold r. cbn [req_headers headers_ref]. rewrite Hheap.
    by rewrite list_lookup_insert_eq. }
  set (s1 := (match answer _ with Json _ => _ | Fails _ => _ end).2).
  assert (self s1 = self s ∧ heap s1 = heap s2 ∧
          sent_requests s1 = (sent_requests s ++ [r])%list) as (Hself1 & Hheap1 & Hsent1).
  { unfold s1. destruct (answer _); cbn [snd self heap trace emit deliver];
      (split; [done|]); (split; [done|]);
      unfold sent_requests in *;
      cbn [snd self heap trace emit deliver]; rewrite !omap_app, Hsent; cbn;
      by rewrite ?app_nil_r. }
  assert (default_headers s1 = add ∪ default_headers s) as Hdef.
  { unfold default_headers at 1. rewrite Hself1, Hheap1, Hheap.
    by rewrite list_lookup_insert_eq. }
  split; [by rewrite Hself1|]. split; [done|]. split; [by exists r|].
  intros w' later Hall.
  assert (session_headers (self s1) < length (heap s1))%nat as Hlen1.
  { rewrite Hself1, Hheap1, Hheap. by rewrite length_insert. }
  assert (add ⊆ default_headers s1) as Hsub1.
  { rewrite Hdef. apply map_union_subseteq_l. }
  destruct (perform_all_keeps_added w' add later s1 Hlen1 Hsub1 Hall)
    as (Hh & Hsub & rs & Hrs & Hcars).
  split; [by rewrite Hh, Hself1|]. split; [done|]. by exists rs.
Qed.

(** ** The specification's statements that the code does not satisfy *)

Section Refuted.

Import Sample Scenario.

Local Abbreviation wrapper := (_do_request_safe CLUB_APPID CHROME_USERAGENT parse).
Local Abbreviation coordinator := (_refresh_auth CLUB_APPID CHROME_USERAGENT parse).


(** The other half of the rule fails as well: without a refresh token
    and with an expiry timestamp still ahead, the specification asks
    for a refresh and the code tries its request first. *)
Example no_refresh_without_remember_me :
  let s := without_remember_me in
  let s' := (run (server []) (wrapper "get" friends_url None None None) s).2 in
  truthy (refresh_token (self s)) = false ∧
  spec_decision_rule (self s) (clock s) = true ∧
  first_action (new_events s s') = Some EvAttempt.
Proof. vm_compute. done. Qed.

(** The test compares readings of the local clock, not instants.  On
    Central European time in the night of 2020-10-25, a ticket that
    expires at 02:45 before the clock is set back is not refreshed at
    02:15 after it has been set back, half an hour past the expiry. *)
Example no_refresh_in_the_repeated_hour :
  let c := with_refresh_time (PInt 1603586700) (self without_remember_me) in
  fromtimestamp (LocalTime := cet) 1603586700 = inr (1603593900 * 1000000) ∧
  fromtimestamp (LocalTime := cet) (1603586700 + 1800) = inr (1603592100 * 1000000) ∧
  must_refresh (zone := cet) c (1603592100 * 1000000) = false.
Proof. vm_compute. done. Qed.

(** A timestamp that the platform cannot convert: the call raises the
    error of [fromtimestamp] and nothing is sent. *)
Example unconvertible_expiry_raises :
  let s := upd_self (with_refresh_time (PInt (10 ^ 12))) without_remember_me in
  let r := run (server []) (wrapper "get" friends_url None None None) s in
  r.1 = Raised ValueError ∧ sent_requests r.2 = sent_requests s ∧
  refresh_calls r.2 = refresh_calls s.
Proof. vm_compute. done. Qed.



(** C6, counterexample.  Restoring a bundle without [refreshTime]
    over a populated state replaces the stored expiry estimate. *)
Lemma omitted_refresh_time_is_reset :
  ¬ (∀ (w : script) (data : dict) (s : state),
       data !! "refreshTime" = None →
       refresh_time (self (run w (restore_credentials CLUB_APPID data) s).2) =
       refresh_time (self s)).
Proof.
  intros H.
  specialize (H (server []) minimal_bundle logged_in eq_refl).
  vm_compute in H. discriminate.
Qed.

(** C7, counterexample.  Restoring a bundle that has a ticket and no
    session id into a new client raises [KeyError] and leaves the
    ticket set without a session id. *)
Lemma restore_credentials_not_atomic :
  ¬ (∀ (w : script) (data : dict) (s : state),
       both_or_neither (self s) →
       both_or_neither (self (run w (restore_credentials CLUB_APPID data) s).2)).
Proof.
  intros H.
  specialize (H (server []) (<["ticket" := PStr "T1"]> ∅) fresh eq_refl).
  vm_compute in H. discriminate.
Qed.

Example restore_credentials_partial :
  let r := run (server []) (restore_credentials CLUB_APPID (<["ticket" := PStr "T1"]> ∅))
             fresh in
  r.1 = Raised (KeyError "sessionId") ∧
  token (self r.2) = PStr "T1" ∧ session_id (self r.2) = PNone.
Proof. vm_compute. done. Qed.

(** C10, counterexample.  [get_game_stats] adds two headers to the
    default dictionary; the next [get_friends] is rejected, refreshes
    and retries, and its retried request, sent with the default
    headers, carries neither of them. *)
Lemma added_headers_lost_on_refresh :
  let s1 := (run stats_then_recovering (get_game_stats "SPACE") logged_in).2 in
  let r2 := run stats_then_recovering (wrapper "get" friends_url None None None) s1 in
  default_headers s1 !! "Ubi-LocaleCode" = Some (PStr "en-GB") ∧
  default_headers s1 !! "Ubi-RequestedPlatformType" = Some (PStr "uplay") ∧
  r2.1 = Returned ∅ ∧
  ∃ r, last (sent_requests r2.2) = Some r ∧
       req_url r = friends_url ∧
       req_headers r = authenticated_headers CLUB_APPID (self r2.2) ∧
       req_headers r !! "Ubi-LocaleCode" = None ∧
       req_headers r !! "Ubi-RequestedPlatformType" = None.
Proof.
  vm_compute. do 3 (split; [reflexivity|]).
  eexists. split; [reflexivity|]. by repeat split.
Qed.


End Refuted.

(** ** The theorems at concrete inputs *)

Section Witnesses.

Import Sample Scenario.

Local Abbreviation wrapper := (_do_request_safe CLUB_APPID CHROME_USERAGENT parse).
Local Abbreviation coordinator := (_refresh_auth CLUB_APPID CHROME_USERAGENT parse).
Local Abbreviation protocol := (refresh_protocol CLUB_APPID CHROME_USERAGENT parse).



(** The retried request is rejected as well: the callback is called
    once, last, and the error is raised; with no callback registered
    nothing is called. *)
Example auth_lost_after_rejected_retry :
  let r := run rejecting_twice (wrapper "get" friends_url None None None) with_callback in
  let r' := run rejecting_twice (wrapper "get" friends_url None None None) logged_in in
  r.1 = Raised AuthenticationRequired ∧
  auth_lost_calls r.2 = 1%nat ∧ last (trace r.2) = Some (EvAuthLost 7) ∧
  refresh_calls r.2 = 1%nat ∧ attempts r.2 = 2%nat ∧
  r'.1 = Raised AuthenticationRequired ∧ auth_lost_calls r'.2 = 0%nat.
Proof. vm_compute. done. Qed.

(** A bundle with the three required keys only, over the logged-in
    client. *)
Lemma restore_credentials_omitted_fields_witness :
  let s' := (run (server []) (restore_credentials CLUB_APPID minimal_bundle) logged_in).2 in
  user_name (self s') = PStr "alice" ∧
  refresh_token (self s') = PStr "R0" ∧
  refresh_time (self s') = PStr "0".
Proof.
  cbn zeta.
  destruct (restore_credentials_omitted_fields CLUB_APPID (server []) minimal_bundle
              logged_in) as (Hu & Hr & Ht).
  split; [exact (Hu eq_refl)|]. split; [exact (Hr eq_refl)|].
  apply Ht; [reflexivity|]. vm_compute. reflexivity.
Defined.


(** C9 at its failing input: a new client has [User-Agent] among its
    default headers; once the bundle is restored, the request of
    [get_friends] leaves without it. *)
Lemma default_headers_after_restore_witness :
  default_headers fresh !! "User-Agent" = Some (PStr CHROME_USERAGENT) ∧
  let s1 := (run (server []) (restore_credentials CLUB_APPID bundle) fresh).2 in
  let s2 := (run (server []) (_do_request "get" friends_url None None None) s1).2 in
  ∃ r, sent_requests s2 = (sent_requests fresh ++ [r])%list ∧
       req_headers r =
         <["Ubi-AppId" := PStr CLUB_APPID]>
         (<["Authorization" := PStr "Ubi_v1 t=T0"]>
         (<["Ubi-SessionId" := PStr "S0"]> ∅)) ∧
       req_headers r !! "User-Agent" = None.
Proof.
  split; [reflexivity|].
  exact (default_headers_after_restore CLUB_APPID (server []) (server []) bundle fresh
           (PStr "T0") (PStr "S0") (PStr "U0") "get" friends_url None
           eq_refl eq_refl eq_refl).
Defined.

(** [get_game_stats]'s two headers and a later [get_friends]-like
    request on the logged-in client. *)
Lemma added_headers_persist_witness :
  let add : dict :=
    <["Ubi-RequestedPlatformType" := PStr "uplay"]>
    (<["Ubi-LocaleCode" := PStr "en-GB"]> ∅) in
  let later := [mkCall "get" friends_url None None None] in
  let s1 := (run (server []) (_do_request "get" "stats" None (Some add) None) logged_in).2 in
  let s2 := (run (server []) (perform_all later) s1).2 in
  (session_headers (self logged_in) < length (heap logged_in))%nat ∧
  Forall (spares add) later ∧
  add ⊆ default_headers s2 ∧
  ∃ rs, sent_requests s2 = (sent_requests s1 ++ rs)%list ∧
        Forall2 (carries add) later rs.
Proof.
  cbn zeta.
  set (add := <["Ubi-RequestedPlatformType" := PStr "uplay"]>
              (<["Ubi-LocaleCode" := PStr "en-GB"]> (∅ : dict))).
  assert (session_headers (self logged_in) < length (heap logged_in))%nat as H1
    by (vm_compute; lia).
  assert (Forall (spares add) [mkCall "get" friends_url None None None]) as H2.
  { constructor; [|constructor]. intros _ a Ha. discriminate Ha. }
  destruct (added_headers_persist (server []) "get" "stats" add None logged_in H1)
    as (_ & _ & _ & Hlater).
  destruct (Hlater (server []) _ H2) as (_ & Hsub & Hrs).
  exact (conj H1 (conj H2 (conj Hsub Hrs))).
Defined.

End Witnesses.

(** * Further properties of the client *)

(** ** Persisting and restoring credentials *)

Lemma run_get_credentials (w : script) (s : state) :
  run w get_credentials s =
  (Returned
     (let c := self s in
      let creds : dict :=
        <["ticket" := token c]>
        (<["sessionId" := session_id c]>
        (<["rememberMeTicket" := refresh_token c]>
        (<["userId" := user_id c]>
        (<["refreshTime" := refresh_time c]> ∅)))) in
      if truthy (user_name c) then <["username" := user_name c]> creds else creds),
   s).
Proof. reflexivity. Qed.

(** X1.  Restoring the bundle that [get_credentials] returns changes
    none of the credentials, in any state: it succeeds, every attribute
    of the client but the reference to the default headers is as before,
    and the default headers are rebuilt from the same ticket and
    session id. *)
Theorem credentials_round_trip (CLUB_APPID : string) (w : script) (s : state) :
  let r := run w (creds ← get_credentials; restore_credentials CLUB_APPID creds) s in
  r.1 = Returned tt ∧
  self r.2 = with_session_headers (length (heap s)) (self s) ∧
  default_headers r.2 = authenticated_headers CLUB_APPID (self s).
Proof.
  cbn zeta. rewrite run_bind, run_get_credentials. cbn [and_then]. cbn zeta.
  destruct s as [[cb tok sid rtok rtime uid uname flag hdrs] hp clk n tr].
  cbn [self user_name token session_id refresh_token user_id refresh_time heap].
  set (creds := if truthy uname then _ else _).
  assert (creds !! "ticket" = Some tok ∧ creds !! "sessionId" = Some sid ∧
          creds !! "userId" = Some uid ∧
          dict_get creds "rememberMeTicket" PNone = rtok ∧
          dict_get creds "refreshTime" (PStr "0") = rtime ∧
          (if truthy (dict_get creds "username" PNone)
           then dict_get creds "username" PNone else uname) = uname)
    as (Ht & Hs & Hu & Hrt & Htime & Hname).
  { unfold creds. destruct (truthy uname) eqn:Hn; repeat split; try reflexivity.
    by destruct (truthy (dict_get _ _ _)). }
  rewrite (restore_credentials_returns _ _ _ _ tok sid uid) by done.
  cbn [self heap fst snd auth_lost_callback refresh_token user_name
       refresh_in_progress]. rewrite Hrt, Htime, Hname.
  split; [done|]. split.
  - unfold with_session_headers. cbn. by destruct (truthy rtok).
  - unfold default_headers. cbn. rewrite lookup_app_r by done.
    by rewrite Nat.sub_diag.
Qed.

(** X2.  After a complete bundle has been restored (the three required
    keys, a non-empty [username] and [rememberMeTicket], and a
    [refreshTime]), [get_credentials] returns exactly the six entries
    of that bundle, whatever the client held before. *)
Theorem restored_bundle_is_returned (CLUB_APPID : string) (w : script)
    (data : dict) (s : state) t i u rm un rt :
  data !! "ticket" = Some t → data !! "sessionId" = Some i →
  data !! "userId" = Some u →
  data !! "rememberMeTicket" = Some rm → truthy rm = true →
  data !! "username" = Some un → truthy un = true →
  data !! "refreshTime" = Some rt →
  (run w (restore_credentials CLUB_APPID data;; get_credentials) s).1 =
  Returned
    (<["ticket" := t]> (<["sessionId" := i]> (<["rememberMeTicket" := rm]>
    (<["userId" := u]> (<["username" := un]> (<["refreshTime" := rt]> ∅)))))).
Proof.
  intros Ht Hi Hu Hrm Htrm Hun Htun Hrt.
  rewrite run_bind, (restore_credentials_returns _ _ _ _ t i u) by done.
  cbn [and_then]. rewrite run_get_credentials. cbn [fst self user_name].
  unfold dict_get. rewrite Hun, Hrm, Hrt. cbn.
  rewrite Htrm, Htun. cbn. rewrite Htun. reflexivity.
Qed.

(** ** Requests with explicit headers *)

(** X3.  A call of [_do_request] with a [headers] argument neither
    reads nor writes the session's default headers: the request is sent
    with the given headers, overlaid with [add_to_headers] if present,
    and the client and its default dictionary are as before. *)
Theorem explicit_headers_leave_defaults (w : script) method url (d : dict)
    (add json : option dict) (s : state) :
  (session_headers (self s) < length (heap s))%nat →
  let r := run w (_do_request method url (Some d) add json) s in
  self r.2 = self s ∧
  default_headers r.2 = default_headers s ∧
  sent_requests r.2 =
    (sent_requests s ++
     [mkRequest method url (match add with Some a => a ∪ d | None => d end) json])%list.
Proof.
  intros Hlen. cbn zeta. rewrite run__do_request. cbn zeta.
  unfold prepared, headers_ref, default_headers.
  destruct add as [a|]; destruct (answer (w (sent s))); cbn;
    rewrite ?list_lookup_insert_eq by (rewrite length_app; cbn; lia);
    rewrite ?list_lookup_insert_ne by lia;
    rewrite ?lookup_app_l by done;
    rewrite ?lookup_app_r by done; rewrite ?Nat.sub_diag; cbn;
    rewrite ?copy_into_union;
    (split; [done|]); (split; [done|]);
    unfold sent_requests; cbn; rewrite !omap_app; cbn;
    by rewrite ?app_nil_r.
Qed.

(** ** Replies that cannot be used *)

(** X4.  When [_handle_authorization_response] raises, the state is
    exactly as before, unless the exception is the [KeyError] for
    ['sessionId'] or ['userId'] raised by [restore_credentials]: a
    reply without [expiration], [serverTime] or [ticket], or with a date
    that is not a parsable string, changes nothing. *)
Theorem unusable_reply_changes_nothing (CLUB_APPID : string)
    {zone : LocalTime} (parse : string → option Z) (w : script) (j : dict) (s : state) (e : exn) :
  (run w (_handle_authorization_response CLUB_APPID parse j) s).1 = Raised e →
  e ≠ KeyError "sessionId" → e ≠ KeyError "userId" →
  (run w (_handle_authorization_response CLUB_APPID parse j) s).2 = s.
Proof.
  rewrite run__handle_authorization_response.
  destruct (j !! "expiration") as [[| | |es]|]; try done.
  destruct (parse es) as [te|]; try done.
  destruct (j !! "serverTime") as [[| | |ss]|]; try done.
  destruct (parse ss) as [ts|]; try done.
  destruct (datetime_add (clock s) (te - ts)) as [e'|d]; try done.
  destruct (timestamp d) as [e'|x]; try done.
  set (j' := <["refreshTime" := _]> j).
  destruct (j' !! "ticket") as [t|] eqn:Ht;
    [|by rewrite restore_credentials_no_ticket].
  destruct (j' !! "sessionId") as [i|] eqn:Hi;
    [|rewrite (restore_credentials_no_session _ _ _ _ t) by done;
      cbn; by intros [= <-]].
  destruct (j' !! "userId") as [u|] eqn:Hu;
    [|rewrite (restore_credentials_no_user _ _ _ _ t i) by done;
      cbn; by intros [= <-]].
  by rewrite (restore_credentials_returns _ _ _ _ t i u).
Qed.

(** ** Endpoint methods that bypass the wrapper *)

(** X5.  [get_subscription_titles] sends exactly one request and never
    refreshes, retries or calls the auth-lost callback.  An
    [AuthenticationRequired] answer makes it return [None]; every other
    error, [AccessDenied] included, is raised; a reply without [games]
    raises [KeyError]. *)
Theorem get_subscription_titles_outcome (w : script) (s : state) :
  let r := run w get_subscription_titles s in
  r.1 = match answer (w (sent s)) with
        | Fails AuthenticationRequired => Returned PNone
        | Fails e => Raised e
        | Json j =>
            match j !! "games" with
            | Some v => Returned v
            | None => Raised (KeyError "games")
            end
        end ∧
  self r.2 = self s ∧ sent r.2 = S (sent s) ∧
  refresh_calls r.2 = refresh_calls s ∧ attempts r.2 = attempts s ∧
  auth_lost_calls r.2 = auth_lost_calls s.
Proof.
  cbn zeta. unfold get_subscription_titles.
  rewrite run_bind, run_try_except, run_bind, run__do_request. cbn zeta.
  unfold refresh_calls, attempts, auth_lost_calls, getitem.
  destruct (answer (w (sent s))) as [j|e]; cbn.
  - destruct (j !! "games"); cbn; rewrite !count_ev_app; cbn;
      repeat split; lia.
  - destruct e; cbn; rewrite !count_ev_app; cbn; repeat split; lia.
Qed.

(** X6.  [get_game_stats] sends exactly one request and never
    refreshes, retries or calls the auth-lost callback.  An
    [UnknownError] answer makes it return the empty object; every other
    error, the two authentication errors included, is raised. *)
Theorem get_game_stats_outcome (w : script) (space_id : string) (s : state) :
  let r := run w (get_game_stats space_id) s in
  r.1 = match answer (w (sent s)) with
        | Fails UnknownError => Returned ∅
        | Fails e => Raised e
        | Json j => Returned j
        end ∧
  self r.2 = self s ∧ sent r.2 = S (sent s) ∧
  refresh_calls r.2 = refresh_calls s ∧ attempts r.2 = attempts s ∧
  auth_lost_calls r.2 = auth_lost_calls s.
Proof.
  cbn zeta. unfold get_game_stats.
  rewrite run_bind. cbn [run get_self and_then].
  rewrite run_try_except, run__do_request. cbn zeta.
  unfold refresh_calls, attempts, auth_lost_calls.
  destruct (answer (w (sent s))) as [j|e]; cbn.
  - rewrite !count_ev_app; cbn; repeat split; lia.
  - destruct e; cbn; rewrite !count_ev_app; cbn; repeat split; lia.
Qed.

(** ** More on the authenticated call wrapper *)

Section WrapperAccounting.

Context (CLUB_APPID CHROME_USERAGENT : string) {zone : LocalTime} (parse : string → option Z).

Local Abbreviation coordinator := (_refresh_auth CLUB_APPID CHROME_USERAGENT parse).
Local Abbreviation retry := (fallback CLUB_APPID CHROME_USERAGENT parse).
Local Abbreviation wrapper := (_do_request_safe CLUB_APPID CHROME_USERAGENT parse).
Local Abbreviation body := (guarded CLUB_APPID CHROME_USERAGENT parse).

Lemma run_fallback (w : script) method url headers add json (e : exn) (s : state) :
  run w (retry method url headers add json e) s =
  if is_auth_error e then
    and_then (run w coordinator (emit (EvLog "debug" "Fallback refresh") s))
      (λ _ s', run w (attempt method url headers add json) s')
  else (Raised e, s).
Proof.
  unfold fallback. destruct (is_auth_error e); [|done].
  rewrite run_bind, run_log. cbn [and_then]. by rewrite run_bind.
Qed.

Lemma run_guarded (w : script) method url headers add json (s : state) :
  run w (body method url headers add json) s =
  and_then (run w refresh_needed s)
    (λ needed s0,
       if needed : bool then
         and_then (run w coordinator s0)
           (λ _ s', run w (attempt method url headers add json) s')
       else
         or_else (run w (attempt method url headers add json) s0)
           (λ e s', run w (retry method url headers add json e) s')).
Proof.
  unfold guarded. rewrite run_bind.
  destruct (run w refresh_needed s) as [[[]|e|] s0]; cbn [and_then]; try done.
  - by rewrite run_bind.
  - by rewrite run_try_except.
Qed.

Lemma guarded_bounds (w : script) method url headers add json (s : state) :
  let r := run w (body method url headers add json) s in
  (refresh_calls r.2 ≤ S (refresh_calls s))%nat ∧
  (attempts r.2 ≤ attempts s + 2)%nat.
Proof.
  cbn zeta. rewrite run_guarded.
  pose proof (keeps_run _ w _ s refresh_needed_keeps) as Hk0.
  destruct (run w refresh_needed s) as [[needed|e|] s0]; cbn [and_then snd] in *;
    injection Hk0 as _ Hc0 Ha0 _; [|lia..].
  destruct needed.
  - pose proof (coordinator_counts CLUB_APPID CHROME_USERAGENT parse w s0) as [Hc1 Ha1].
    destruct (run w coordinator s0) as [[[]|e|] s1]; cbn [and_then snd] in *; [|lia..].
    pose proof (attempt_counts w method url headers add json s1) as [Ha2 Hc2].
    cbn zeta in *. lia.
  - pose proof (attempt_counts w method url headers add json s0) as [Ha1 Hc1].
    cbn zeta in *.
    destruct (run w (attempt method url headers add json) s0) as [[j|e|] s1];
      cbn [or_else snd] in *; [lia| |lia].
    rewrite run_fallback. destruct (is_auth_error e); cbn [snd]; [|lia].
    set (s1' := emit (EvLog "debug" "Fallback refresh") s1).
    assert (attempts s1' = attempts s1 ∧ refresh_calls s1' = refresh_calls s1)
      as [Ha1' Hc1'].
    { unfold s1', attempts, refresh_calls. by rewrite !count_ev_emit_quiet. }
    pose proof (coordinator_counts CLUB_APPID CHROME_USERAGENT parse w s1') as [Hc2 Ha2].
    destruct (run w coordinator s1') as [[[]|e2|] s2]; cbn [and_then snd] in *; [|lia..].
    pose proof (attempt_counts w method url headers add json s2) as [Ha3 Hc3].
    cbn zeta in *. lia.
Qed.

(** X7.  In every call of [_do_request_safe], whatever the state and
    the server do, the coordinator is called at most once, the request
    is tried at most twice and the auth-lost callback is called at most
    once. *)
Theorem wrapper_bounds (w : script) method url headers add json (s : state) :
  let r := run w (wrapper method url headers add json) s in
  (refresh_calls r.2 ≤ S (refresh_calls s))%nat ∧
  (attempts r.2 ≤ attempts s + 2)%nat ∧
  (auth_lost_calls r.2 ≤ S (auth_lost_calls s))%nat.
Proof.
  cbn zeta. rewrite run__do_request_safe.
  pose proof (guarded_bounds w method url headers add json s) as [Hc Ha].
  pose proof (keeps_run _ w _ s
                (guarded_keeps CLUB_APPID CHROME_USERAGENT parse
                   method url headers add json)) as Hk.
  cbn zeta in *.
  destruct (run w (body method url headers add json) s) as [[j|e|] s1];
    cbn [or_else snd] in *; injection Hk as Hcb Hl; [lia| |lia].
  pose proof (keeps_run _ w _ s1 (on_failure_keeps e)) as Hk2.
  injection Hk2 as Hc2 Ha2.
  split; [lia|]. split; [lia|].
  rewrite run_on_failure. cbn [snd]. unfold auth_lost_calls in *.
  destruct (is_auth_error e).
  - destruct (auth_lost_callback (self s1)).
    + rewrite count_ev_emit, count_ev_emit_quiet by done. cbn. lia.
    + rewrite count_ev_emit_quiet by done. lia.
  - rewrite count_ev_emit_quiet by done. lia.
Qed.






End WrapperAccounting.

(** ** Endpoint methods built on the wrapper *)

Section EndpointMethods.

Context (CLUB_APPID CHROME_USERAGENT : string) {zone : LocalTime} (parse : string → option Z).

Local Abbreviation wrapper := (_do_request_safe CLUB_APPID CHROME_USERAGENT parse).

(** X10.  [get_configuration] never returns a value.  Its request goes
    through the wrapper as usual; when the wrapper returns the decoded
    reply, [r.json()] raises [AttributeError], outside the wrapper's
    handlers; otherwise the call ends as the wrapper ends.  The state
    is the one the wrapper leaves. *)
Theorem get_configuration_never_returns (w : script) (s : state) :
  let r := run w (get_configuration CLUB_APPID CHROME_USERAGENT parse) s in
  let q := run w (wrapper "get" "https://uplaywebcenter.ubi.com/v1/configuration"
                    None None None) s in
  (∀ j, r.1 ≠ Returned j) ∧
  r.2 = q.2 ∧
  r.1 = match q.1 with
        | Returned _ => Raised (OtherException "AttributeError")
        | Raised e => Raised e
        | Blocked => Blocked
        end.
Proof.
  cbn zeta. unfold get_configuration. rewrite run_bind.
  by destruct (run w (wrapper _ _ _ _ _) s) as [[j|e|] s1].
Qed.

Lemma run_space_ids (w : script) (spaces : list dict) (s : state) :
  run w (space_ids spaces) s =
  (match mapM (λ space : dict, space !! "spaceId") spaces with
   | Some vs => Returned vs
   | None => Raised (KeyError "spaceId")
   end, s).
Proof.
  induction spaces as [|space rest IH]; [done|].
  cbn [space_ids]. rewrite run_bind. unfold getitem. cbn [mapM].
  destruct (space !! "spaceId") as [v|]; cbn; [|done].
  rewrite run_bind, IH.
  by destruct (mapM _ rest).
Qed.

Lemma run_join_strings (w : script) (vs : list pyval) (s : state) :
  run w (join_strings vs) s =
  (match mapM as_string vs with
   | Some ss => Returned ss
   | None => Raised TypeError
   end, s).
Proof.
  induction vs as [|v rest IH]; [done|].
  destruct v; cbn [join_strings mapM as_string]; cbn; try done.
  rewrite run_bind, IH. by destruct (mapM _ rest).
Qed.

(** X11.  [get_applications] sends nothing unless every space has a
    string [spaceId]: a space without the key raises [KeyError], else an
    id that is not a string raises [TypeError], both with the state
    untouched; otherwise the wrapper performs one GET whose URL lists
    the ids in order, separated by commas. *)
Theorem get_applications_outcome (w : script) (spaces : list dict) (s : state) :
  run w (get_applications CLUB_APPID CHROME_USERAGENT parse spaces) s =
  match mapM (λ space : dict, space !! "spaceId") spaces with
  | None => (Raised (KeyError "spaceId"), s)
  | Some vs =>
      match mapM as_string vs with
      | None => (Raised TypeError, s)
      | Some ss =>
          run w (wrapper "get"
                   ("https://api-ubiservices.ubi.com/v2/applications?spaceIds="
                    ++ String.concat "," ss) None None None) s
      end
  end.
Proof.
  unfold get_applications. rewrite run_bind, run_space_ids.
  destruct (mapM _ spaces) as [vs|]; cbn [and_then]; [|done].
  rewrite run_bind, run_join_strings.
  by destruct (mapM as_string vs).
Qed.

End EndpointMethods.

(** ** Persistence after a refresh *)

Section Persistence.

Context (CLUB_APPID CHROME_USERAGENT : string) {zone : LocalTime} (parse : string → option Z).

Local Abbreviation coordinator := (_refresh_auth CLUB_APPID CHROME_USERAGENT parse).
Local Abbreviation protocol := (refresh_protocol CLUB_APPID CHROME_USERAGENT parse).

Lemma phases_keep_stores :
  keeps (λ s, count_ev is_store (trace s))
    (_refresh_remember_me CLUB_APPID CHROME_USERAGENT parse) ∧
  keeps (λ s, count_ev is_store (trace s))
    (_refresh_ticket CLUB_APPID CHROME_USERAGENT parse).
Proof.
  split;
    unfold _refresh_remember_me, _refresh_ticket, _do_options_request, _do_request,
      _handle_authorization_response, restore_credentials;
    frame.
Qed.

Lemma run_refresh_protocol (w : script) (s : state) :
  run w protocol s =
  and_then (run w (_refresh_remember_me CLUB_APPID CHROME_USERAGENT parse) s)
    (λ _ s1,
       and_then (run w (_refresh_ticket CLUB_APPID CHROME_USERAGENT parse) s1)
         (λ _ s2,
            and_then (run w get_credentials s2)
              (λ creds s3, (Returned tt, emit (EvStore creds) s3)))).
Proof.
  unfold refresh_protocol. rewrite run_bind.
  destruct (run w (_refresh_remember_me _ _ _) s) as [[[]|e|] s1]; cbn [and_then]; try done.
  rewrite run_bind.
  by destruct (run w (_refresh_ticket _ _ _) s1) as [[[]|e|] s2].
Qed.

Lemma protocol_stores_on_success (w : script) (s : state) :
  let r := run w protocol s in
  match r.1 with
  | Returned _ =>
      store_calls r.2 = S (store_calls s) ∧
      ∃ creds, (run w get_credentials r.2).1 = Returned creds ∧
               last (trace r.2) = Some (EvStore creds)
  | _ => store_calls r.2 = store_calls s
  end.
Proof.
  cbn zeta. rewrite run_refresh_protocol.
  destruct phases_keep_stores as [H1 H2].
  apply (keeps_run _ w _ s) in H1.
  destruct (run w (_refresh_remember_me _ _ _) s) as [[[]|e|] s1];
    cbn [and_then fst snd] in *; try (unfold store_calls; congruence).
  apply (keeps_run _ w _ s1) in H2.
  destruct (run w (_refresh_ticket _ _ _) s1) as [[[]|e|] s2];
    cbn [and_then fst snd] in *; try (unfold store_calls; congruence).
  rewrite run_get_credentials. cbn [and_then fst snd].
  unfold store_calls. rewrite count_ev_emit. cbn [is_store].
  split; [lia|]. eexists. split; [reflexivity|].
  cbn. by rewrite last_snoc.
Qed.

(** X12.  [_refresh_auth] hands the credentials to the plugin's
    [store_credentials] exactly when it returns normally, and then
    exactly once, as its last recorded action and with the bundle that
    [get_credentials] gives in the final state; when a phase fails, and
    for a caller that finds a refresh in progress, nothing is stored. *)
Theorem credentials_stored_on_success_only (w : script) (s : state) :
  let r := run w coordinator s in
  match r.1 with
  | Returned _ =>
      store_calls r.2 = S (store_calls s) ∧
      ∃ creds, (run w get_credentials r.2).1 = Returned creds ∧
               last (trace r.2) = Some (EvStore creds)
  | _ => store_calls r.2 = store_calls s
  end.
Proof.
  cbn zeta. destruct (refresh_in_progress (self s)) eqn:Hflag.
  - unfold _refresh_auth. cbn. rewrite Hflag. cbn. rewrite Hflag. cbn.
    unfold store_calls. cbn. rewrite !count_ev_app. cbn. lia.
  - rewrite (run_coordinator_owner CLUB_APPID CHROME_USERAGENT parse w s Hflag).
    cbn zeta. set (s1 := upd_self _ (emit EvEnterRefresh s)).
    assert (store_calls s1 = store_calls s) as Hs1.
    { unfold s1, store_calls. cbn. rewrite count_ev_app. cbn. lia. }
    pose proof (protocol_stores_on_success w s1) as Hp. cbn zeta in Hp.
    destruct (run w protocol s1) as [[[]|e|] s2]; cbn [fst snd] in *;
      [|unfold store_calls in *; cbn; lia..].
    destruct Hp as (Hn & creds & Hcreds & Hlast).
    split; [unfold store_calls in *; cbn; lia|].
    exists creds. split; [|done].
    rewrite run_get_credentials in *. cbn in *. done.
Qed.

End Persistence.

(** ** The two phases of a refresh *)

Section Phases.

Context (CLUB_APPID CHROME_USERAGENT : string) {zone : LocalTime} (parse : string → option Z).









End Phases.

(** ** One refresh at a time *)

Lemma releases_try_finally (m : prog unit) :
  keeps (λ s, refresh_in_progress (self s)) m →
  nonblocking m →
  releases (try_finally m (set_self (with_refresh_in_progress false))).
Proof.
  intros Hk Hnb. induction Hnb as [a|e|k _ IH|f k _ IH|r k _ IH].
  - by apply releases_ret.
  - by apply releases_raise.
  - inversion Hk as [| |k' Hk'| | |]; subst.
    apply releases_read. intros s. apply IH, Hk'.
  - inversion Hk as [| | |f' k' Hf Hk'| |]; subst.
    apply releases_upd; [exact Hf|]. by apply IH.
  - inversion Hk as [| | | |r' k' _ _ Hk'|]; subst.
    apply releases_await. intros x. apply IH, Hk'.
Qed.

Lemma advance_releases (p : prog unit) (s : state) :
  releases p →
  refresh_in_progress (self s) = true →
  match advance p s with
  | (Pending k, s') =>
      refresh_in_progress (self s') = true ∧ ∀ x, releases (k x)
  | (Done _, s') => refresh_in_progress (self s') = false
  | (Ready _, _) => False
  end.
Proof.
  intros Hp. revert s. induction Hp as [f a Hf|f e Hf|k _ IH|f k Hf _ IH|r k Hk _];
    intros s Hflag; cbn.
  - apply Hf.
  - apply Hf.
  - by apply IH.
  - apply IH. by rewrite Hf.
  - done.
Qed.

Section SingleFlight.

Context (CLUB_APPID CHROME_USERAGENT : string) {zone : LocalTime} (parse : string → option Z).

Local Abbreviation coordinator := (_refresh_auth CLUB_APPID CHROME_USERAGENT parse).
Local Abbreviation protocol := (refresh_protocol CLUB_APPID CHROME_USERAGENT parse).
Local Abbreviation resting := (idle CLUB_APPID CHROME_USERAGENT parse).
Local Abbreviation exclusive := (single_flight CLUB_APPID CHROME_USERAGENT parse).

(** A caller that finds the flag clear sets it and starts the protocol. *)
Lemma advance_coordinator_free (s : state) :
  refresh_in_progress (self s) = false →
  advance coordinator s =
  advance (try_finally protocol (set_self (with_refresh_in_progress false)))
    (upd_self (with_refresh_in_progress true) (emit EvEnterRefresh s)).
Proof.
  intros Hflag. unfold _refresh_auth.
  generalize (try_finally protocol (set_self (with_refresh_in_progress false))).
  intros T. cbn. by rewrite Hflag.
Qed.

Lemma protocol_releases :
  releases (try_finally protocol (set_self (with_refresh_in_progress false))).
Proof.
  apply releases_try_finally.
  - frame_by refresh_protocol_keeps.
  - apply refresh_protocol_nonblocking.
Qed.

Lemma idle_not_pending (t : thread unit) : resting t → is_pending t = false.
Proof. by intros [->|[->|[o ->]]]. Qed.

Lemma owning_pending (t : thread unit) : owning t → is_pending t = true.
Proof. by intros (k & -> & _). Qed.

(** The invariant re-established after a caller has been resumed. *)
Lemma single_flight_set (pool : list (thread unit)) (s' : state) (i : nat)
    (t : thread unit) :
  (i < length pool)%nat →
  refresh_in_progress (self s') = true →
  owning t →
  (∀ j t', j ≠ i → pool !! j = Some t' → resting t') →
  exclusive (<[i := t]> pool, s').
Proof.
  intros Hlen Hflag Hown Hidle. unfold single_flight. cbn [fst snd].
  rewrite Hflag. exists i, t. split; [by rewrite list_lookup_insert_eq|].
  split; [done|]. intros j t' Hne. rewrite list_lookup_insert_ne by done.
  by apply Hidle.
Qed.

Lemma single_flight_clear (pool : list (thread unit)) (s' : state) (i : nat)
    (t : thread unit) :
  refresh_in_progress (self s') = false →
  resting t →
  (∀ j t', j ≠ i → pool !! j = Some t' → resting t') →
  exclusive (<[i := t]> pool, s').
Proof.
  intros Hflag Ht Hidle. unfold single_flight. cbn [fst snd].
  rewrite Hflag. intros j t' Hj.
  destruct (decide (j = i)) as [->|Hne].
  - apply list_lookup_insert_Some in Hj as [(_ & <- & _)|[? _]]; done.
  - rewrite list_lookup_insert_ne in Hj by done. by eapply Hidle.
Qed.

Lemma single_flight_other (pool : list (thread unit)) (s' : state) (i j : nat)
    (t tj : thread unit) :
  refresh_in_progress (self s') = true →
  pool !! i = Some t → owning t → j ≠ i → resting tj →
  (∀ j' t', j' ≠ i → pool !! j' = Some t' → resting t') →
  exclusive (<[j := tj]> pool, s').
Proof.
  intros Hflag Hi Hown Hne Htj Hidle. unfold single_flight. cbn [fst snd].
  rewrite Hflag. exists i, t. split; [by rewrite list_lookup_insert_ne|].
  split; [done|]. intros j' t' Hne' Hj'.
  destruct (decide (j' = j)) as [->|Hne2].
  - apply list_lookup_insert_Some in Hj' as [(_ & <- & _)|[? _]]; done.
  - rewrite list_lookup_insert_ne in Hj' by done. by eapply Hidle.
Qed.

(** Resuming any caller keeps the invariant. *)
Lemma resume_single_flight (j : nat) (d : delivery)
    (cfg : list (thread unit) * state) :
  exclusive cfg → exclusive (resume j d cfg).
Proof.
  destruct cfg as [pool s]. intros Hinv. unfold resume.
  destruct (pool !! j) as [tj|] eqn:Hj; [|done].
  assert (j < length pool)%nat as Hlen by (by eapply lookup_lt_Some).
  unfold single_flight in Hinv. cbn [fst snd] in Hinv.
  destruct (refresh_in_progress (self s)) eqn:Hflag.
  - (* a refresh is in progress *)
    destruct Hinv as (i & t & Hi & Hown & Hidle).
    destruct (decide (j = i)) as [->|Hne].
    + (* the owner receives a reply *)
      assert (tj = t) as -> by congruence.
      destruct Hown as (k & -> & Hk).
      pose proof (advance_releases (k (answer d)) (deliver d s) (Hk _) Hflag) as Hadv.
      destruct (advance (k (answer d)) (deliver d s)) as [[p|k'|o] s']; [done| |].
      * destruct Hadv as [Hflag' Hk'].
        apply single_flight_set; [done|done| |done]. by exists k'.
      * apply single_flight_clear with (i := i); [done| |done]. right. right. by exists o.
    + (* another caller is resumed *)
      pose proof (Hidle j tj Hne Hj) as [->|[->|[o ->]]].
      * rewrite advance_coordinator_busy by done.
        eapply single_flight_other; [done|exact Hi|done|done| |done].
        right. by left.
      * unfold waiting. rewrite advance_waiting. cbn [self at_clock]. rewrite Hflag.
        eapply single_flight_other; [done|exact Hi|done|done| |done].
        right. by left.
      * unfold single_flight. cbn [fst snd]. rewrite Hflag. by exists i, t.
  - (* no refresh is in progress *)
    pose proof (Hinv j tj Hj) as [->|[->|[o ->]]].
    + rewrite advance_coordinator_free by done.
      set (s1 := upd_self _ _).
      pose proof (advance_releases _ s1 protocol_releases eq_refl) as Hadv.
      destruct (advance _ s1) as [[p|k'|o] s']; [done| |].
      * destruct Hadv as [Hflag' Hk'].
        apply single_flight_set; [done|done|by exists k'|].
        intros j' t' _. apply Hinv.
      * apply single_flight_clear with (i := j); [done| |].
        { right. right. by exists o. }
        intros j' t' _. apply Hinv.
    + unfold waiting. rewrite advance_waiting. cbn [self at_clock]. rewrite Hflag.
      apply single_flight_clear with (i := j); [done| |].
      { right. right. by eexists. }
      intros j' t' _. apply Hinv.
    + unfold single_flight. cbn [fst snd]. by rewrite Hflag.
Qed.

Lemma sched_single_flight (steps : list (nat * delivery))
    (cfg : list (thread unit) * state) :
  exclusive cfg → exclusive (sched steps cfg).
Proof.
  revert cfg. induction steps as [|[j d] steps IH]; intros cfg Hinv; [done|].
  rewrite sched_cons. by apply IH, resume_single_flight.
Qed.

Lemma resume_length {A : Type} (i : nat) (d : delivery)
    (cfg : list (thread A) * state) :
  length (resume i d cfg).1 = length cfg.1.
Proof.
  destruct cfg as [pool s]. unfold resume.
  destruct (pool !! i) as [[p|k|o]|]; [| |done..].
  - destruct (advance p _) as [t s']. cbn. by rewrite length_insert.
  - destruct (advance (k _) _) as [t s']. cbn. by rewrite length_insert.
Qed.

Lemma sched_length {A : Type} (steps : list (nat * delivery))
    (cfg : list (thread A) * state) :
  length (sched steps cfg).1 = length cfg.1.
Proof.
  revert cfg. induction steps as [|[j d] steps IH]; intros cfg; [done|].
  by rewrite sched_cons, IH, resume_length.
Qed.

(** C5.  A caller of [_refresh_auth] that finds the flag clear sets it
    before the two-phase protocol starts: at its first suspension, which
    is on the preflight request of the first phase, the first request it
    sends, the flag is set.  On the event loop, whatever it is served
    and whenever it is resumed, the flag is set exactly while it is
    suspended inside the protocol and is clear once it is done.  Run
    to its end, which it always reaches, [_refresh_auth] ends as the
    protocol ends, with a return or with any exception, and with the
    flag clear. *)
Theorem flag_guaranteed_release (w : script) (s : state) :
  refresh_in_progress (self s) = false →
  let s1 := upd_self (with_refresh_in_progress true) (emit EvEnterRefresh s) in
  let p := run w protocol s1 in
  let r := run w coordinator s in
  let first := advance coordinator s in
  (∃ k q, first.1 = Pending k ∧
          refresh_in_progress (self first.2) = true ∧
          sent_requests first.2 = (sent_requests s ++ [q])%list ∧
          req_method q = "options" ∧ req_url q = sessions_url) ∧
  (∀ steps, let cfg := sched steps ([Ready coordinator], s) in
            ∃ t, cfg.1 = [t] ∧
                 is_pending t = refresh_in_progress (self cfg.2)) ∧
  r.1 = p.1 ∧ r.1 ≠ Blocked ∧
  r.2 = upd_self (with_refresh_in_progress false) p.2 ∧
  refresh_in_progress (self r.2) = false.
Proof.
  intros Hflag. cbn zeta. split; [|split].
  - rewrite advance_coordinator_free by done.
    unfold refresh_protocol, _refresh_remember_me, _do_options_request.
    cbn. eexists _, _. split; [reflexivity|]. split; [reflexivity|].
    split.
    { unfold sent_requests. cbn. rewrite !omap_app. cbn. by rewrite !app_nil_r. }
    done.
  - intros steps.
    assert (exclusive ([Ready coordinator], s)) as Hinit.
    { unfold single_flight. cbn [fst snd]. rewrite Hflag.
      intros j t' Hj. destruct j; [|done]. injection Hj as <-. by left. }
    apply (sched_single_flight steps) in Hinit.
    pose proof (sched_length steps ([Ready coordinator], s)) as Hlen.
    destruct (sched steps _) as [pool s']. cbn [fst snd] in *.
    destruct pool as [|t [|t2 pool]]; [done| |done].
    exists t. split; [done|].
    unfold single_flight in Hinit. cbn [fst snd] in Hinit.
    destruct (refresh_in_progress (self s')).
    + destruct Hinit as (i & t' & Hi & Hown & _).
      destruct i; [|done]. injection Hi as <-. by apply owning_pending.
    + by apply idle_not_pending, (Hinit 0%nat).
  - rewrite (run_coordinator_owner CLUB_APPID CHROME_USERAGENT parse w s Hflag).
    cbn zeta. set (s1 := upd_self _ _).
    pose proof (nonblocking_run w protocol s1
                  (refresh_protocol_nonblocking _ _ _)) as Hnb.
    destruct (run w protocol s1) as [[[]|e|] s2]; cbn [fst snd] in *; done.
Qed.

(** X15.  However [n] concurrent callers of [_refresh_auth] on one
    client are interleaved and whatever the server answers, at most one
    of them is ever suspended inside the two-phase protocol, and one is
    exactly when the in-progress flag is set; all the others have not
    started, are polling, or are done. *)
Theorem one_refresh_at_a_time (n : nat) (s : state) (steps : list (nat * delivery)) :
  refresh_in_progress (self s) = false →
  let cfg := sched steps (replicate n (Ready coordinator), s) in
  (∀ i j ki kj, cfg.1 !! i = Some (Pending ki) → cfg.1 !! j = Some (Pending kj) →
                i = j) ∧
  ((∃ i k, cfg.1 !! i = Some (Pending k)) ↔
   refresh_in_progress (self cfg.2) = true) ∧
  (∀ i t, cfg.1 !! i = Some t → is_pending t = false → resting t).
Proof.
  intros Hflag. cbn zeta.
  assert (exclusive (replicate n (Ready coordinator), s)) as Hinit.
  { unfold single_flight. cbn [fst snd]. rewrite Hflag.
    intros j t' Hj. apply lookup_replicate in Hj as [-> _]. by left. }
  apply (sched_single_flight steps) in Hinit.
  destruct (sched steps _) as [pool s']. unfold single_flight in Hinit.
  cbn [fst snd] in *.
  destruct (refresh_in_progress (self s')) eqn:Hflag'.
  - destruct Hinit as (i0 & t & Hi0 & Hown & Hidle).
    assert (∀ i k, pool !! i = Some (Pending k) → i = i0) as Honly.
    { intros i k Hi. destruct (decide (i = i0)) as [|Hne]; [done|].
      by apply (Hidle i _ Hne), idle_not_pending in Hi. }
    split; [|split].
    + intros i j ki kj Hi Hj. by rewrite (Honly i ki Hi), (Honly j kj Hj).
    + split; [done|]. intros _. destruct Hown as (k & -> & _). by exists i0, k.
    + intros i t' Hi Hnp. destruct (decide (i = i0)) as [->|Hne].
      * assert (t' = t) as -> by congruence.
        apply owning_pending in Hown. congruence.
      * by eapply Hidle.
  - assert (∀ i k, pool !! i = Some (Pending k) → False) as Hnone.
    { intros i k Hi. by apply Hinit, idle_not_pending in Hi. }
    split; [|split].
    + intros i j ki kj Hi. by destruct (Hnone i ki).
    + split; [|done]. intros (i & k & Hi). by destruct (Hnone i k).
    + intros i t' Hi _. by eapply Hinit.
Qed.

End SingleFlight.

(** ** Logging in *)

Lemma run_collect_cookies_state (w : script) (cookies : list dict) (acc : dict)
    (s : state) :
  (run w (collect_cookies cookies acc) s).2 = s.
Proof.
  revert acc. induction cookies as [|c rest IH]; intros acc; [done|].
  cbn [collect_cookies]. rewrite run_bind. unfold getitem.
  destruct (c !! "name") as [[| | |n]|]; cbn [run and_then]; try done; try apply IH.
  destruct (bool_decide (n ∈ tasty_cookies)); [|apply IH].
  rewrite run_bind.
  destruct (c !! "value") as [v|]; cbn [run and_then]; [apply IH|done].
Qed.

(** The loop succeeds on cookies that have a name and a value. *)
Lemma run_collect_cookies_returns (w : script) (cookies : list dict) (acc : dict)
    (s : state) :
  Forall (λ c : dict, is_Some (c !! "name") ∧ is_Some (c !! "value")) cookies →
  ∃ ud, run w (collect_cookies cookies acc) s = (Returned ud, s).
Proof.
  revert acc. induction cookies as [|c rest IH]; intros acc Hwf.
  - by exists acc.
  - apply Forall_cons in Hwf as [[[nm Hn] [v Hv]] Hwf].
    cbn [collect_cookies]. rewrite run_bind. unfold getitem.
    rewrite Hn. cbn [run and_then].
    destruct nm as [| | |n]; try by apply IH.
    destruct (bool_decide (n ∈ tasty_cookies)); [|by apply IH].
    rewrite run_bind, Hv. cbn [run and_then]. by apply IH.
Qed.

(** X16.  The loop over the login cookies has no effect on the client;
    when it succeeds, the collected dictionary differs from the initial
    one only at names of the fixed list, a name that no cookie carries
    is left as it was, and of several cookies with one listed name the
    last one gives the value. *)
Theorem cookies_are_collected (w : script) (cookies : list dict) (acc ud : dict)
    (s s' : state) :
  run w (collect_cookies cookies acc) s = (Returned ud, s') →
  s' = s ∧
  (∀ n, n ∉ tasty_cookies → ud !! n = acc !! n) ∧
  (∀ n, Forall (λ c : dict, c !! "name" ≠ Some (PStr n)) cookies →
        ud !! n = acc !! n) ∧
  (∀ before c after n v,
     cookies = (before ++ c :: after)%list →
     c !! "name" = Some (PStr n) → n ∈ tasty_cookies → c !! "value" = Some v →
     Forall (λ c' : dict, c' !! "name" ≠ Some (PStr n)) after →
     ud !! n = Some v).
Proof.
  intros Hrun.
  assert (s' = s) as ->.
  { pose proof (run_collect_cookies_state w cookies acc s) as H.
    by rewrite Hrun in H. }
  split; [done|].
  revert acc Hrun. induction cookies as [|c rest IH]; intros acc Hrun.
  - injection Hrun as <-. repeat split; try done.
    intros before c after n v Heq. by destruct before.
  - cbn [collect_cookies] in Hrun. rewrite run_bind in Hrun. unfold getitem in Hrun.
    destruct (c !! "name") as [nm|] eqn:Hn; cbn [run and_then] in Hrun; [|done].
    assert (∀ acc', run w (collect_cookies rest acc') s = (Returned ud, s) →
      (∀ n, c !! "name" = Some (PStr n) → n ∈ tasty_cookies →
            ∃ v, c !! "value" = Some v ∧ acc' = <[n := v]> acc) →
      (∀ n, c !! "name" ≠ Some (PStr n) ∨ n ∉ tasty_cookies → acc' = acc) →
      (∀ n, n ∉ tasty_cookies → ud !! n = acc !! n) ∧
      (∀ n, Forall (λ c : dict, c !! "name" ≠ Some (PStr n)) (c :: rest) →
            ud !! n = acc !! n) ∧
      (∀ before c0 after n v,
         (c :: rest = before ++ c0 :: after)%list →
         c0 !! "name" = Some (PStr n) → n ∈ tasty_cookies → c0 !! "value" = Some v →
         Forall (λ c' : dict, c' !! "name" ≠ Some (PStr n)) after →
         ud !! n = Some v)) as Hstep.
    { intros acc' Hrest Htaken Hskipped.
      destruct (IH acc' Hrest) as (H1 & H2 & H3).
      split; [|split].
      - intros n Hnt. rewrite (H1 n Hnt). by rewrite (Hskipped n (or_intror Hnt)).
      - intros n Hall. apply Forall_cons in Hall as [Hc Hall].
        rewrite (H2 n Hall). by rewrite (Hskipped n (or_introl Hc)).
      - intros before c0 after n v Heq Hn0 Htasty Hv Hafter.
        destruct before as [|b before]; cbn in Heq; injection Heq as -> ->.
        + rewrite (H2 n Hafter).
          destruct (Htaken n Hn0 Htasty) as (v' & Hv' & ->).
          rewrite lookup_insert_eq. congruence.
        + by eapply H3. }
    destruct nm as [| | |n0]; try (apply (Hstep acc Hrun);
      [intros n Hn'; congruence|done]).
    destruct (bool_decide (n0 ∈ tasty_cookies)) eqn:Htasty.
    + rewrite run_bind in Hrun.
      destruct (c !! "value") as [v|] eqn:Hv; cbn [run and_then] in Hrun; [|done].
      apply bool_decide_eq_true in Htasty.
      assert (∀ n, c !! "name" ≠ Some (PStr n) ∨ n ∉ tasty_cookies →
                   ud !! n = (<[n0 := v]> acc) !! n → ud !! n = acc !! n) as Hother.
      { intros n Hn' ->. apply lookup_insert_ne. intros ->.
        destruct Hn' as [Hn'|Hn']; [by rewrite Hn in Hn'|done]. }
      destruct (IH (<[n0 := v]> acc) Hrun) as (H1 & H2 & H3).
      split; [|split].
      * intros n Hnt. by apply (Hother n (or_intror Hnt)), H1.
      * intros n Hall. apply Forall_cons in Hall as [Hc Hall].
        by apply (Hother n (or_introl Hc)), H2.
      * intros before c0 after n v0 Heq Hn0 Htasty0 Hv0 Hafter.
        destruct before as [|b before]; cbn in Heq; injection Heq as -> ->.
        -- rewrite (H2 n Hafter).
           assert (n = n0) as -> by congruence.
           rewrite lookup_insert_eq. congruence.
        -- by eapply H3.
    + apply bool_decide_eq_false in Htasty.
      apply (Hstep acc Hrun).
      * intros n Hn' Hin. congruence.
      * done.
Qed.

Lemma collect_cookies_absent (w : script) (cookies : list dict) (acc ud : dict)
    (s s' : state) (n : string) :
  Forall (λ c : dict, c !! "name" ≠ Some (PStr n)) cookies →
  run w (collect_cookies cookies acc) s = (Returned ud, s') →
  ud !! n = acc !! n.
Proof.
  revert acc. induction cookies as [|c rest IH]; intros acc Hall Hrun.
  - by injection Hrun as <-.
  - apply Forall_cons in Hall as [Hc Hall].
    cbn [collect_cookies] in Hrun. rewrite run_bind in Hrun. unfold getitem in Hrun.
    destruct (c !! "name") as [[| | |n0]|]; cbn [run and_then] in Hrun;
      try done; try by apply IH.
    destruct (bool_decide (n0 ∈ tasty_cookies)); [|by apply IH].
    rewrite run_bind in Hrun.
    destruct (c !! "value") as [v|]; cbn [run and_then] in Hrun; [|done].
    rewrite (IH _ Hall Hrun). apply lookup_insert_ne. congruence.
Qed.

Lemma collect_cookies_only_tasty (w : script) (cookies : list dict) (acc ud : dict)
    (s s' : state) (n : string) :
  n ∉ tasty_cookies →
  run w (collect_cookies cookies acc) s = (Returned ud, s') →
  ud !! n = acc !! n.
Proof.
  intros Hn. revert acc. induction cookies as [|c rest IH]; intros acc Hrun.
  - by injection Hrun as <-.
  - cbn [collect_cookies] in Hrun. rewrite run_bind in Hrun. unfold getitem in Hrun.
    destruct (c !! "name") as [[| | |n0]|]; cbn [run and_then] in Hrun;
      try done; try by apply IH.
    destruct (bool_decide (n0 ∈ tasty_cookies)) eqn:Ht; [|by apply IH].
    apply bool_decide_eq_true in Ht.
    rewrite run_bind in Hrun.
    destruct (c !! "value") as [v|]; cbn [run and_then] in Hrun; [|done].
    rewrite (IH _ Hrun). apply lookup_insert_ne. by intros ->.
Qed.

(** A wrapped request on a client that holds a refresh token, answered
    with a JSON object: one try, nothing else. *)
Lemma run_wrapper_accepted (CLUB_APPID CHROME_USERAGENT : string)
    {zone : LocalTime} (parse : string → option Z) (w : script) method url add json (s : state) (j : dict) :
  truthy (refresh_token (self s)) = true →
  answer (w (sent s)) = Json j →
  let s2 := prepared None add (emit EvAttempt s) in
  let hs := default ∅ (heap s2 !! session_headers (self s)) in
  run w (_do_request_safe CLUB_APPID CHROME_USERAGENT parse method url None add json) s =
  (Returned j,
   emit (EvLog "info" "Response status")
     (deliver (w (sent s)) (emit (EvSend (mkRequest method url hs json)) s2))).
Proof.
  intros Hrt Hans. cbn zeta.
  rewrite run__do_request_safe, run_guarded, run_refresh_needed, Hrt.
  cbn [and_then]. unfold attempt. rewrite run_bind, run_modify. cbn [and_then].
  rewrite run__do_request. cbn zeta. cbn [sent emit]. rewrite Hans.
  reflexivity.
Qed.

Section Login.

Context (CLUB_APPID CHROME_USERAGENT : string) {zone : LocalTime} (parse : string → option Z).

Local Abbreviation stored_login :=
  (authorise_with_stored_credentials CLUB_APPID CHROME_USERAGENT parse).
Local Abbreviation cookie_login :=
  (authorise_with_cookies CLUB_APPID CHROME_USERAGENT parse).

(** X17.  A cookie login needs the cookies [user_id] and [user_name]:
    given cookies that each have a name and a value, if none is named
    [user_id] the call raises [KeyError('user_id')], and if none is named
    [user_name] it raises that or [KeyError('user_name')]; in both cases
    before anything is restored, sent or stored: the state is
    unchanged. *)
Theorem cookie_login_needs_user (w : script) (cookies : list dict) (s : state) :
  Forall (λ c : dict, is_Some (c !! "name") ∧ is_Some (c !! "value")) cookies →
  (Forall (λ c : dict, c !! "name" ≠ Some (PStr "user_id")) cookies →
   run w (cookie_login cookies) s = (Raised (KeyError "user_id"), s)) ∧
  (Forall (λ c : dict, c !! "name" ≠ Some (PStr "user_name")) cookies →
   run w (cookie_login cookies) s = (Raised (KeyError "user_id"), s) ∨
   run w (cookie_login cookies) s = (Raised (KeyError "user_name"), s)).
Proof.
  intros Hwf.
  destruct (run_collect_cookies_returns w cookies ∅ s Hwf) as [ud Hud].
  unfold authorise_with_cookies. rewrite run_bind, Hud. cbn [and_then].
  split.
  - intros Hnone.
    pose proof (collect_cookies_absent w cookies ∅ ud s s "user_id" Hnone Hud) as Hid.
    rewrite lookup_empty in Hid.
    unfold dict_pop. by rewrite Hid.
  - intros Hnone.
    pose proof (collect_cookies_absent w cookies ∅ ud s s "user_name" Hnone Hud) as Hnm.
    rewrite lookup_empty in Hnm.
    unfold dict_pop.
    destruct (ud !! "user_id") as [v|]; [|by left].
    right. cbn -[restore_credentials post_sessions get_credentials].
    by rewrite lookup_insert_ne, lookup_delete_ne, Hnm.
Qed.

(** X18.  A cookie login whose cookies give a ticket, a session id,
    a user id, a user name and a non-empty remember-me ticket, and whose
    session request is answered: the client holds these credentials
    with the expiry estimate ['0']; exactly one request is sent, the
    POST to the sessions endpoint, with the new default headers plus
    [Content-Type]; the coordinator is not called; the credentials are
    stored once; and the returned dictionary has [userId] and
    [username] in place of [user_id] and [user_name]. *)
Theorem cookie_login_succeeds (w : script) (cookies : list dict) (s : state)
    (ud j : dict) t i u un rm :
  run w (collect_cookies cookies ∅) s = (Returned ud, s) →
  ud !! "ticket" = Some t → ud !! "sessionId" = Some i →
  ud !! "user_id" = Some u → ud !! "user_name" = Some un →
  ud !! "rememberMeTicket" = Some rm → truthy rm = true →
  answer (w (sent s)) = Json j →
  let r := run w (cookie_login cookies) s in
  r.1 = Returned (<["username" := un]> (delete "user_name"
                    (<["userId" := u]> (delete "user_id" ud)))) ∧
  token (self r.2) = t ∧ session_id (self r.2) = i ∧ user_id (self r.2) = u ∧
  refresh_token (self r.2) = rm ∧ refresh_time (self r.2) = PStr "0" ∧
  refresh_calls r.2 = refresh_calls s ∧
  store_calls r.2 = S (store_calls s) ∧
  sent_requests r.2 =
    (sent_requests s ++
     [mkRequest "post" "https://public-ubiservices.ubi.com/v2/profiles/sessions"
        (<["Content-Type" := PStr "application/json"]>
           (<["Ubi-AppId" := PStr CLUB_APPID]>
           (<["Authorization" := PStr ("Ubi_v1 t=" ++ py_str t)]>
           (<["Ubi-SessionId" := i]> ∅))))
        None])%list.
Proof.
  intros Hud Ht Hi Hu Hun Hrm Htrm Hans. cbn zeta.
  pose proof (collect_cookies_only_tasty w cookies ∅ ud s s "refreshTime") as Hrt.
  rewrite lookup_empty in Hrt. assert ("refreshTime" ∉ tasty_cookies) as Hnt
    by (apply (bool_decide_unpack _); vm_compute; exact I).
  specialize (Hrt Hnt Hud).
  unfold authorise_with_cookies. rewrite run_bind, Hud. cbn [and_then].
  unfold dict_pop. rewrite Hu.
  cbn -[restore_credentials post_sessions get_credentials].
  rewrite lookup_insert_ne, lookup_delete_ne, Hun by done.
  cbn -[restore_credentials post_sessions get_credentials].
  set (data := <["username" := un]> _).
  assert (data !! "ticket" = Some t ∧ data !! "sessionId" = Some i ∧
          data !! "userId" = Some u ∧ data !! "username" = Some un ∧
          data !! "rememberMeTicket" = Some rm ∧ data !! "refreshTime" = None)
    as (Hdt & Hdi & Hdu & Hdun & Hdrm & Hdrt).
  { unfold data.
    repeat split;
      repeat first [rewrite lookup_insert_eq; reflexivity
                   | rewrite lookup_insert_ne by done
                   | rewrite lookup_delete_ne by done];
      done. }
  pose proof (restore_credentials_returns CLUB_APPID w data s t i u Hdt Hdi Hdu) as Hrc.
  cbn zeta in Hrc. unfold dict_get in Hrc. rewrite Hdrm, Hdrt, Hdun in Hrc.
  cbn [default from_option id] in Hrc. rewrite Htrm in Hrc.
  rewrite run_bind, Hrc. cbn [and_then]. clear Hrc.
  set (c1 := mkClient _ _ _ _ _ _ _ _ _).
  set (s1 := mkState _ _ _ _ _).
  rewrite run_bind. unfold post_sessions.
  rewrite (run_wrapper_accepted _ _ _ w _ _ _ _ s1 j Htrm Hans).
  cbn [and_then]. rewrite run_bind, run_get_credentials. cbn [and_then].
  cbn [run mret prog_ret fst snd].
  assert (default ∅ (heap (prepared None
            (Some (<["Content-Type" := PStr "application/json"]> ∅))
            (emit EvAttempt s1)) !! session_headers (self s1)) =
          <["Content-Type" := PStr "application/json"]>
            (authenticated_headers CLUB_APPID c1)) as ->.
  { cbn [prepared headers_ref emit with_heap self heap s1 c1 session_headers].
    rewrite list_lookup_insert_eq by (rewrite length_app; cbn; lia).
    rewrite list_lookup_middle by done. cbn [default from_option].
    rewrite copy_into_union, <- insert_union_l. by rewrite (left_id_L ∅ (∪)). }
  split; [done|].
  repeat (split; [reflexivity|]).
  unfold refresh_calls, store_calls, sent_requests.
  cbn [prepared headers_ref emit deliver with_heap self heap trace s1].
  rewrite !count_ev_app, !omap_app. cbn. 
  split; [lia|]. split; [lia|]. by rewrite !app_nil_r.
Qed.

(** The common end of both logins: the session request, answered, and
    the storing of the credentials. *)
Lemma run_login_tail (w : script) (s : state) (user_data j : dict) :
  truthy (refresh_token (self s)) = true →
  answer (w (sent s)) = Json j →
  (session_headers (self s) < length (heap s))%nat →
  let r := run w (post_sessions CLUB_APPID CHROME_USERAGENT parse;;
                  creds ← get_credentials;
                  modify (emit (EvStore creds));;
                  mret user_data) s in
  r.1 = Returned user_data ∧
  sent_requests r.2 =
    (sent_requests s ++
     [mkRequest "post" "https://public-ubiservices.ubi.com/v2/profiles/sessions"
        (<["Content-Type" := PStr "application/json"]> (default_headers s)) None])%list ∧
  store_calls r.2 = S (store_calls s) ∧
  refresh_calls r.2 = refresh_calls s.
Proof.
  intros Hrm Hans Hlen. cbn zeta.
  rewrite run_bind. unfold post_sessions.
  rewrite (run_wrapper_accepted _ _ _ w _ _ _ _ s j Hrm Hans).
  cbn [and_then]. rewrite run_bind, run_get_credentials. cbn [and_then].
  rewrite run_bind, run_modify. cbn [and_then].
  change (run w (mret ?x) ?s') with (Returned x, s').
  cbn [fst snd].
  assert (default ∅ (heap (prepared None
            (Some (<["Content-Type" := PStr "application/json"]> ∅))
            (emit EvAttempt s)) !! session_headers (self s)) =
          <["Content-Type" := PStr "application/json"]> (default_headers s)) as ->.
  { cbn [prepared headers_ref emit with_heap self heap].
    rewrite list_lookup_insert_eq by done. cbn [default from_option].
    rewrite copy_into_union, <- insert_union_l. by rewrite (left_id_L ∅ (∪)). }
  split; [done|].
  unfold refresh_calls, store_calls, sent_requests.
  cbn [prepared headers_ref emit deliver with_heap self heap trace].
  rewrite !count_ev_app, !omap_app. cbn.
  split; [by rewrite !app_nil_r|]. split; lia.
Qed.

(** X19.  A login with stored credentials that hold a ticket, a
    session id, a user id and a non-empty remember-me ticket, answered
    by the server: the user data is fetched only when, after the
    bundle is restored, the client has no user name or no user id (the
    name may be the one the client already had).  When both are known
    the only request is the POST to the sessions endpoint and the
    result is built from the client; otherwise a GET of the user
    precedes it and its reply is the result.  The credentials are
    stored once and the coordinator is not called. *)
Theorem stored_login_fetches_unknown_user (w : script) (credentials : dict) (s : state)
    (j0 j1 : dict) t i u rm :
  credentials !! "ticket" = Some t → credentials !! "sessionId" = Some i →
  credentials !! "userId" = Some u →
  credentials !! "rememberMeTicket" = Some rm → truthy rm = true →
  answer (w (sent s)) = Json j0 → answer (w (S (sent s))) = Json j1 →
  let name := if truthy (dict_get credentials "username" PNone)
              then dict_get credentials "username" PNone else user_name (self s) in
  let known := (truthy name && truthy u)%bool in
  let hs : dict := <["Ubi-AppId" := PStr CLUB_APPID]>
                   (<["Authorization" := PStr ("Ubi_v1 t=" ++ py_str t)]>
                   (<["Ubi-SessionId" := i]> ∅)) in
  let post := mkRequest "post" "https://public-ubiservices.ubi.com/v2/profiles/sessions"
                (<["Content-Type" := PStr "application/json"]> hs) None in
  let get := mkRequest "get" ("https://public-ubiservices.ubi.com/v3/users/" ++ py_str u)
               hs None in
  let r := run w (stored_login credentials) s in
  r.1 = Returned (if known then <["username" := name]> (<["userId" := u]> ∅) else j0) ∧
  sent_requests r.2 = (sent_requests s ++ if known then [post] else [get; post])%list ∧
  store_calls r.2 = S (store_calls s) ∧
  refresh_calls r.2 = refresh_calls s.
Proof.
  intros Ht Hi Hu Hrm Htrm Hans0 Hans1. cbn zeta.
  pose proof (restore_credentials_returns CLUB_APPID w credentials s t i u Ht Hi Hu) as Hrc.
  cbn zeta in Hrc.
  replace (dict_get credentials "rememberMeTicket" PNone) with rm in Hrc
    by (unfold dict_get; by rewrite Hrm).
  rewrite Htrm in Hrc.
  set (name := if truthy (dict_get credentials "username" PNone) then _ else _) in *.
  unfold authorise_with_stored_credentials.
  rewrite run_bind, Hrc. cbn [and_then]. clear Hrc.
  set (c1 := mkClient _ _ _ _ _ _ _ _ _).
  set (s1 := mkState _ _ _ _ _).
  set (hs0 := <["Ubi-AppId" := PStr CLUB_APPID]> _).
  assert (default_headers s1 = hs0) as Hdef.
  { unfold default_headers. cbn [s1 c1 self heap session_headers].
    by rewrite list_lookup_middle. }
  assert (session_headers (self s1) < length (heap s1))%nat as Hlen.
  { cbn [s1 c1 self heap session_headers]. rewrite length_app. cbn. lia. }
  rewrite run_bind. change (run w get_self s1) with (Returned c1, s1).
  cbn [and_then]. change (user_name c1) with name. change (user_id c1) with u.
  rewrite <- negb_andb.
  destruct (truthy name && truthy u)%bool; cbn [negb].
  - rewrite run_bind. change (run w (mret ?x) s1) with (Returned x, s1).
    cbn [and_then].
    match goal with |- context [run w ?p s1] =>
      destruct (run_login_tail w s1 (<["username" := name]> (<["userId" := u]> ∅)) j0
                  Htrm Hans0 Hlen) as (-> & -> & -> & ->) end.
    by rewrite Hdef.
  - unfold get_user_data.
    rewrite !run_bind. change (run w get_self s1) with (Returned c1, s1).
    cbn [and_then]. change (user_id c1) with u.
    rewrite (run_wrapper_accepted _ _ _ w _ _ _ _ s1 j0 Htrm Hans0).
    cbn [and_then].
    set (s2 := emit _ (deliver _ _)).
    assert (default ∅ (heap (prepared None None (emit EvAttempt s1))
                         !! session_headers (self s1)) = hs0) as Hget by exact Hdef.
    assert (default_headers s2 = hs0) as Hdef2 by exact Hdef.
    assert (session_headers (self s2) < length (heap s2))%nat as Hlen2 by exact Hlen.
    assert (sent_requests s2 =
            sent_requests s ++
            [mkRequest "get" ("https://public-ubiservices.ubi.com/v3/users/" ++ py_str u)
               hs0 None])%list as Hsent2.
    { unfold s2. rewrite sent_requests_emit, app_nil_r, Hget. unfold sent_requests.
      cbn [deliver trace emit prepared headers_ref]. rewrite !omap_app. cbn.
      by rewrite !app_nil_r. }
    assert (store_calls s2 = store_calls s ∧ refresh_calls s2 = refresh_calls s)
      as [Hst2 Hrf2].
    { unfold store_calls, refresh_calls, s2.
      cbn [deliver trace emit prepared headers_ref]. rewrite !count_ev_app. cbn. lia. }
    match goal with |- context [run w ?p s2] =>
      destruct (run_login_tail w s2 j0 j1 Htrm Hans1 Hlen2) as (-> & -> & -> & ->) end.
    rewrite Hdef2, Hsent2, Hst2, Hrf2, <- app_assoc. done.
Qed.

End Login.

(** ** Sample runs of the properties above *)

Section Runs.

Import Sample Scenario Visit.

Local Abbreviation wrapper := (_do_request_safe CLUB_APPID CHROME_USERAGENT parse).
Local Abbreviation coordinator := (_refresh_auth CLUB_APPID CHROME_USERAGENT parse).


(** The sample bundle restored into a new client. *)
Lemma restored_bundle_is_returned_witness :
  (run (server []) (restore_credentials CLUB_APPID bundle;; get_credentials) fresh).1 =
  Returned bundle.
Proof.
  exact (restored_bundle_is_returned CLUB_APPID (server []) bundle fresh
           (PStr "T0") (PStr "S0") (PStr "U0") (PStr "R0") (PStr "alice")
           (PInt 1588330800)
           eq_refl eq_refl eq_refl eq_refl eq_refl eq_refl eq_refl eq_refl).
Defined.

(** A preflight-like request on the logged-in client. *)
Lemma explicit_headers_leave_defaults_witness :
  let d : dict := <["Origin" := PStr "https://connect.ubisoft.com"]> ∅ in
  let r := run (server []) (_do_request "options" sessions_url (Some d) None None)
             logged_in in
  (session_headers (self logged_in) < length (heap logged_in))%nat ∧
  self r.2 = self logged_in ∧
  default_headers r.2 = default_headers logged_in ∧
  sent_requests r.2 =
    (sent_requests logged_in ++ [mkRequest "options" sessions_url d None])%list.
Proof.
  cbn zeta.
  assert (session_headers (self logged_in) < length (heap logged_in))%nat as H1
    by (vm_compute; lia).
  exact (conj H1
    (explicit_headers_leave_defaults (server []) "options" sessions_url
       (<["Origin" := PStr "https://connect.ubisoft.com"]> ∅) None None logged_in H1)).
Defined.

(** A reply without [serverTime]. *)
Lemma unusable_reply_changes_nothing_witness :
  let j := delete "serverTime" (session_reply "T1" "S1") in
  let r := run (server []) (_handle_authorization_response CLUB_APPID parse j)
             logged_in in
  r.1 = Raised (KeyError "serverTime") ∧ r.2 = logged_in.
Proof.
  cbn zeta.
  assert ((run (server [])
             (_handle_authorization_response CLUB_APPID parse
                (delete "serverTime" (session_reply "T1" "S1"))) logged_in).1 =
          Raised (KeyError "serverTime")) as H1 by (vm_compute; reflexivity).
  split; [exact H1|].
  apply (unusable_reply_changes_nothing CLUB_APPID parse (server []) _ logged_in
           (KeyError "serverTime") H1); discriminate.
Defined.





(** Three callers on the logged-in client, after four steps. *)
Lemma one_refresh_at_a_time_witness :
  let cfg := sched [(0%nat, on_time); (1%nat, on_time); (2%nat, on_time); (0%nat, on_time)]
               (replicate 3 (Ready coordinator), logged_in) in
  refresh_in_progress (self logged_in) = false ∧
  (∀ i j ki kj, cfg.1 !! i = Some (Pending ki) → cfg.1 !! j = Some (Pending kj) →
                i = j) ∧
  ((∃ i k, cfg.1 !! i = Some (Pending k)) ↔
   refresh_in_progress (self cfg.2) = true).
Proof.
  cbn zeta.
  assert (refresh_in_progress (self logged_in) = false) as H0 by reflexivity.
  destruct (one_refresh_at_a_time CLUB_APPID CHROME_USERAGENT parse 3 logged_in
              [(0%nat, on_time); (1%nat, on_time); (2%nat, on_time); (0%nat, on_time)] H0)
    as (Hone & Hflag & _).
  exact (conj H0 (conj Hone Hflag)).
Defined.

(** The cookies of a completed login: the later ticket wins and the
    language cookie is not collected. *)
Lemma cookies_are_collected_witness :
  run (server []) (collect_cookies cookies ∅) fresh = (Returned collected, fresh) ∧
  collected !! "lang" = None ∧
  collected !! "ticket" = Some (PStr "T0").
Proof.
  assert (run (server []) (collect_cookies cookies ∅) fresh = (Returned collected, fresh))
    as H0 by (vm_compute; reflexivity).
  destruct (cookies_are_collected (server []) cookies ∅ collected fresh fresh H0)
    as (_ & Hother & _ & Hlast).
  split; [exact H0|]. split.
  - apply (Hother "lang"). apply (bool_decide_unpack _). vm_compute. exact I.
  - apply (Hlast [cookie "ticket" "old"; cookie "user_id" "U0"; cookie "lang" "en-GB";
                  cookie "user_name" "alice"]
                 (cookie "ticket" "T0")
                 [cookie "rememberMeTicket" "R0"; cookie "sessionId" "S0"]
                 "ticket" (PStr "T0")); try reflexivity.
    + apply (bool_decide_unpack _). vm_compute. exact I.
    + repeat constructor; discriminate.
Defined.

(** A visit that did not log in. *)
Lemma cookie_login_needs_user_witness :
  Forall (λ c : dict, is_Some (c !! "name") ∧ is_Some (c !! "value")) anonymous ∧
  Forall (λ c : dict, c !! "name" ≠ Some (PStr "user_id")) anonymous ∧
  run (server []) (authorise_with_cookies CLUB_APPID CHROME_USERAGENT parse anonymous) fresh =
  (Raised (KeyError "user_id"), fresh).
Proof.
  assert (Forall (λ c : dict, is_Some (c !! "name") ∧ is_Some (c !! "value")) anonymous)
    as H0 by (repeat constructor; eexists; reflexivity).
  assert (Forall (λ c : dict, c !! "name" ≠ Some (PStr "user_id")) anonymous)
    as H1 by (repeat constructor; discriminate).
  destruct (cookie_login_needs_user CLUB_APPID CHROME_USERAGENT parse (server [])
              anonymous fresh H0) as [Hid _].
  exact (conj H0 (conj H1 (Hid H1))).
Defined.

(** A completed login on a new client. *)
Lemma cookie_login_succeeds_witness :
  let r := run (server [])
             (authorise_with_cookies CLUB_APPID CHROME_USERAGENT parse cookies) fresh in
  run (server []) (collect_cookies cookies ∅) fresh = (Returned collected, fresh) ∧
  r.1 = Returned (<["username" := PStr "alice"]> (delete "user_name"
                    (<["userId" := PStr "U0"]> (delete "user_id" collected)))) ∧
  token (self r.2) = PStr "T0" ∧ refresh_time (self r.2) = PStr "0" ∧
  store_calls r.2 = S (store_calls fresh).
Proof.
  cbn zeta.
  assert (run (server []) (collect_cookies cookies ∅) fresh = (Returned collected, fresh))
    as H0 by (vm_compute; reflexivity).
  destruct (cookie_login_succeeds CLUB_APPID CHROME_USERAGENT parse (server []) cookies
              fresh collected ∅ (PStr "T0") (PStr "S0") (PStr "U0") (PStr "alice")
              (PStr "R0") H0 eq_refl eq_refl eq_refl eq_refl eq_refl eq_refl eq_refl)
    as (Hret & Ht & _ & _ & _ & Hrt & _ & Hst & _).
  exact (conj H0 (conj Hret (conj Ht (conj Hrt Hst)))).
Defined.

(** Stored credentials without a user name on a new client: the user
    is fetched first. *)
Lemma stored_login_fetches_unknown_user_witness :
  let w := server [Json user_reply] in
  let r := run w (authorise_with_stored_credentials CLUB_APPID CHROME_USERAGENT parse
                    nameless) fresh in
  r.1 = Returned user_reply ∧
  length (sent_requests r.2) = (length (sent_requests fresh) + 2)%nat ∧
  store_calls r.2 = S (store_calls fresh).
Proof.
  cbn zeta.
  destruct (stored_login_fetches_unknown_user CLUB_APPID CHROME_USERAGENT parse
              (server [Json user_reply]) nameless fresh user_reply ∅
              (PStr "T0") (PStr "S0") (PStr "U0") (PStr "R0")
              eq_refl eq_refl eq_refl eq_refl eq_refl eq_refl eq_refl)
    as (Hret & Hsent & Hst & _).
  split; [exact Hret|]. split; [|exact Hst].
  rewrite Hsent, length_app. reflexivity.
Defined.


(** The owner on the logged-in client: suspended on its first request,
    and run to the end of a served refresh. *)
Lemma flag_guaranteed_release_witness :
  let r := run recovering coordinator logged_in in
  let cfg := sched [(0%nat, on_time)] ([Ready coordinator], logged_in) in
  refresh_in_progress (self logged_in) = false ∧
  (∃ t, cfg.1 = [t] ∧ is_pending t = refresh_in_progress (self cfg.2)) ∧
  refresh_in_progress (self cfg.2) = true ∧
  r.1 ≠ Blocked ∧ refresh_in_progress (self r.2) = false.
Proof.
  cbn zeta.
  assert (refresh_in_progress (self logged_in) = false) as H1 by reflexivity.
  destruct (flag_guaranteed_release CLUB_APPID CHROME_USERAGENT parse recovering
              logged_in H1) as (_ & Hloop & _ & Hnb & _ & Hclear).
  split; [exact H1|]. split; [exact (Hloop [(0%nat, on_time)])|].
  split; [reflexivity|]. exact (conj Hnb Hclear).
Defined.

End Runs.
